(** * PrimeMultiset: a multiset of primes stored as one integer

    Shallow embedding of [prime_multiset.py].  A Python [int] is a [Z];
    [//] and [%] are floor division and floor modulus, which is what
    [Z.div] and [Z.modulo] compute for a non-zero divisor, and both raise
    [ZeroDivisionError] on a zero divisor.  [math.gcd] is [Z.gcd] (always
    non-negative, [gcd 0 0 = 0]).

    Instances of the class are mutable objects, so the embedding keeps an
    object store: a reference is an index into the store and the store
    holds the [value] attribute of every instance created so far.  The
    operators that build a [PrimeMultiset(...)] extend the store; the
    in-place operators and the modifying methods overwrite one cell and
    hand back the reference they were given. *)

From Stdlib Require Import ZArith Lia.
From stdpp Require Import base list.

Local Open Scope Z_scope.

(** ** Exceptions, object store and the computation monad *)

Inductive exn : Type :=
  | KeyError (element : Z)
  | ZeroDivisionError.

Definition ref : Type := nat.

Definition heap : Type := list Z.

(** A call either returns a result, or raises; both leave a store behind.
    [NoSuchObject] is the outcome of dereferencing an index that was never
    allocated, which no Python program can do. *)
Inductive outcome (A : Type) : Type :=
  | Returns (a : A) (h : heap)
  | Raises (e : exn) (h : heap)
  | NoSuchObject.

Arguments Returns {A} a h.
Arguments Raises {A} e h.
Arguments NoSuchObject {A}.

Definition py (A : Type) : Type := heap -> outcome A.

Definition ret {A : Type} (a : A) : py A := fun h => Returns a h.

Definition bind {A B : Type} (m : py A) (k : A -> py B) : py B :=
  fun h =>
    match m h with
    | Returns a h' => k a h'
    | Raises e h' => Raises e h'
    | NoSuchObject => NoSuchObject
    end.

Definition raise {A : Type} (e : exn) : py A := fun h => Raises e h.

Declare Scope py_scope.
Delimit Scope py_scope with py.
Notation "x <- m ;; k" := (bind m (fun x => k))
  (at level 62, m at next level, right associativity) : py_scope.
Notation "m ;;; k" := (bind m (fun _ => k))
  (at level 62, right associativity) : py_scope.

(** [obj.value] *)
Definition get_value (r : ref) : py Z :=
  fun h =>
    match h !! r with
    | Some v => Returns v h
    | None => NoSuchObject
    end.

(** [obj.value = v] *)
Definition set_value (r : ref) (v : Z) : py unit :=
  fun h =>
    match h !! r with
    | Some _ => Returns tt (<[r := v]> h)
    | None => NoSuchObject
    end.

(** A fresh instance whose [value] is [v]; its reference is the next free
    index. *)
Definition alloc (v : Z) : py ref :=
  fun h => Returns (length h) (h ++ [v]).

(** ** Integer primitives of Python *)

(** [a // b] *)
Definition floordiv (a b : Z) : py Z :=
  if b =? 0 then raise ZeroDivisionError else ret (a / b).

(** [a % b] *)
Definition pymod (a b : Z) : py Z :=
  if b =? 0 then raise ZeroDivisionError else ret (a mod b).

(** [divmod(a, b)] *)
Definition divmod (a b : Z) : py (Z * Z) :=
  if b =? 0 then raise ZeroDivisionError else ret (a / b, a mod b).

(** [functools.reduce(operator.mul, sequence, initial)] *)
Definition reduce_mul (sequence : list Z) (initial : Z) : Z :=
  fold_left Z.mul sequence initial.

(** ** The class *)

Module PrimeMultiset.

Local Open Scope py_scope.

(** [PrimeMultiset(sequence, initial_value)]: the instance is created and
    [__init__] stores the folded product in it. *)
Definition __init__ (sequence : list Z) (initial_value : Z) : py ref :=
  alloc (reduce_mul sequence initial_value).

(** The defaults of [__init__]: [sequence=()] and [initial_value=1]. *)
Definition default_sequence : list Z := [].
Definition default_initial_value : Z := 1.

(** Helper function. *)

Definition __lcm (lhs rhs : Z) : py Z :=
  floordiv (lhs * rhs) (Z.gcd lhs rhs).

(** Usual multiset operations. *)

Definition __and__ (self other : ref) : py ref :=
  x <- get_value self ;;
  y <- get_value other ;;
  __init__ default_sequence (Z.gcd x y).

Definition __iand__ (self other : ref) : py ref :=
  x <- get_value self ;;
  y <- get_value other ;;
  set_value self (Z.gcd x y) ;;;
  ret self.

Definition __or__ (self other : ref) : py ref :=
  x <- get_value self ;;
  y <- get_value other ;;
  l <- __lcm x y ;;
  __init__ default_sequence l.

Definition __ior__ (self other : ref) : py ref :=
  x <- get_value self ;;
  y <- get_value other ;;
  l <- __lcm x y ;;
  set_value self l ;;;
  ret self.

Definition __add__ (self other : ref) : py ref :=
  x <- get_value self ;;
  y <- get_value other ;;
  __init__ default_sequence (x * y).

Definition __iadd__ (self other : ref) : py ref :=
  x <- get_value self ;;
  y <- get_value other ;;
  set_value self (x * y) ;;;
  ret self.

Definition __sub__ (self other : ref) : py ref :=
  x <- get_value self ;;
  common <- __and__ self other ;;
  g <- get_value common ;;
  q <- floordiv x g ;;
  __init__ default_sequence q.

Definition __isub__ (self other : ref) : py ref :=
  x <- get_value self ;;
  common <- __and__ self other ;;
  g <- get_value common ;;
  q <- floordiv x g ;;
  set_value self q ;;;
  ret self.

(** Multiset equality operations. *)

Definition __eq__ (self other : ref) : py bool :=
  x <- get_value self ;;
  y <- get_value other ;;
  ret (x =? y).

Definition __ne__ (self other : ref) : py bool :=
  x <- get_value self ;;
  y <- get_value other ;;
  ret (negb (x =? y)).

(** Multiset inclusion operations. *)

Definition __le__ (self other : ref) : py bool :=
  y <- get_value other ;;
  x <- get_value self ;;
  r <- pymod y x ;;
  ret (r =? 0).

Definition __ge__ (self other : ref) : py bool :=
  x <- get_value self ;;
  y <- get_value other ;;
  r <- pymod x y ;;
  ret (r =? 0).

(** [and] evaluates its right operand only when the left one is true. *)
Definition __lt__ (self other : ref) : py bool :=
  c <- __le__ self other ;;
  if c then __ne__ self other else ret false.

Definition __gt__ (self other : ref) : py bool :=
  c <- __ge__ self other ;;
  if c then __ne__ self other else ret false.

(** Modifying operations. *)

Definition add (self : ref) (element : Z) : py unit :=
  x <- get_value self ;;
  set_value self (x * element).

Definition remove (self : ref) (element : Z) : py unit :=
  x <- get_value self ;;
  qr <- divmod x element ;;
  if negb (snd qr =? 0) then raise (KeyError element)
  else set_value self (fst qr).

Definition discard (self : ref) (element : Z) : py unit :=
  x <- get_value self ;;
  qr <- divmod x element ;;
  if snd qr =? 0 then set_value self (fst qr) else ret tt.

Definition clear (self : ref) : py unit :=
  set_value self 1.

(** Non-modifying operations. *)

Definition is_empty (self : ref) : py bool :=
  x <- get_value self ;;
  ret (x =? 1).

Definition __contains__ (self : ref) (element : Z) : py bool :=
  x <- get_value self ;;
  r <- pymod x element ;;
  ret (r =? 0).

End PrimeMultiset.

(** ** Notions of the specification *)

(** The multiplicity of [p] in the multiset encoded by [n] is the exponent
    of [p] in [n]: the number of times [p] can be divided out.  The class
    never computes it; it is what the operations are specified against.
    For [2 <= p] and [1 <= n] every division shrinks [n], so [n] itself is
    enough fuel. *)
Fixpoint multiplicity_upto (fuel : nat) (p n : Z) : nat :=
  match fuel with
  | O => O
  | S fuel' =>
      if n mod p =? 0 then S (multiplicity_upto fuel' p (n / p)) else O
  end.

Definition multiplicity (p n : Z) : nat :=
  multiplicity_upto (Z.to_nat n) p n.

(** The product of a sequence, with the empty product equal to 1. *)
Definition product (sequence : list Z) : Z :=
  fold_right Z.mul 1 sequence.

(** The least common multiple as the specification writes it. *)
Definition lcm_formula (x y : Z) : Z := x * y / Z.gcd x y.

(** The data-model invariant: every instance holds a value of at least 1. *)
Definition heap_ok (h : heap) : Prop := Forall (fun v => 1 <= v) h.

(** [positive_at h r v]: [r] is an instance of [h] whose value [v] obeys
    the invariant. *)
Definition positive_at (h : heap) (r : ref) (v : Z) : Prop :=
  h !! r = Some v /\ 1 <= v.

(** The store a call leaves behind, whether it returned or raised. *)
Definition final_heap {A : Type} (o : outcome A) : option heap :=
  match o with
  | Returns _ h => Some h
  | Raises _ h => Some h
  | NoSuchObject => None
  end.

(** The operations of the class that can change or extend the store. *)
Inductive call : Type :=
  | CAnd (a b : ref)
  | CIand (a b : ref)
  | COr (a b : ref)
  | CIor (a b : ref)
  | CAdd (a b : ref)
  | CIadd (a b : ref)
  | CSub (a b : ref)
  | CIsub (a b : ref)
  | CAddElement (a : ref) (element : Z)
  | CRemove (a : ref) (element : Z)
  | CDiscard (a : ref) (element : Z)
  | CClear (a : ref).

Definition forget {A : Type} (m : py A) : py unit :=
  bind m (fun _ => ret tt).

Definition exec (c : call) : py unit :=
  match c with
  | CAnd a b => forget (PrimeMultiset.__and__ a b)
  | CIand a b => forget (PrimeMultiset.__iand__ a b)
  | COr a b => forget (PrimeMultiset.__or__ a b)
  | CIor a b => forget (PrimeMultiset.__ior__ a b)
  | CAdd a b => forget (PrimeMultiset.__add__ a b)
  | CIadd a b => forget (PrimeMultiset.__iadd__ a b)
  | CSub a b => forget (PrimeMultiset.__sub__ a b)
  | CIsub a b => forget (PrimeMultiset.__isub__ a b)
  | CAddElement a e => PrimeMultiset.add a e
  | CRemove a e => PrimeMultiset.remove a e
  | CDiscard a e => PrimeMultiset.discard a e
  | CClear a => PrimeMultiset.clear a
  end.

(** A call is well formed in a store when its operands are instances of the
    store and its element argument is at least 1. *)
Definition call_wf (h : heap) (c : call) : Prop :=
  match c with
  | CAnd a b | CIand a b | COr a b | CIor a b
  | CAdd a b | CIadd a b | CSub a b | CIsub a b =>
      (a < length h)%nat /\ (b < length h)%nat
  | CAddElement a e | CRemove a e | CDiscard a e =>
      (a < length h)%nat /\ 1 <= e
  | CClear a => (a < length h)%nat
  end.

(** An operator hands back a new instance: a reference the store did not
    hold before the call, behind which the value [v] now sits. *)
Definition returns_new (o : outcome ref) (h : heap) (v : Z) : Prop :=
  exists (r : ref) (h' : heap),
    o = Returns r h' /\ h !! r = None /\ h' !! r = Some v.

(** An in-place operator hands back [self], which now holds [v]. *)
Definition returns_self (o : outcome ref) (self : ref) (v : Z) : Prop :=
  exists h' : heap, o = Returns self h' /\ h' !! self = Some v.

(** The in-place operator [iop] leaves in its left operand what the
    operator [op] would have put in a new instance. *)
Definition inplace_agrees (iop op : ref -> ref -> py ref)
    (h : heap) (a b : ref) : Prop :=
  exists v : Z,
    returns_new (op a b h) h v /\ returns_self (iop a b h) a v.

(** The value a call returns, if it returns. *)
Definition result {A : Type} (o : outcome A) : option A :=
  match o with
  | Returns a _ => Some a
  | _ => None
  end.

(** The shapes of the assertions of the module's self-test, run in an empty
    store: [op(P(a), P(b)) == P(c)], [cmp(P(a), P(b))] and [e in P(a)]. *)
Definition operator_test (op : ref -> ref -> py ref) (a b c : list Z)
    : option bool :=
  result
    ((pa <- PrimeMultiset.__init__ a PrimeMultiset.default_initial_value ;;
      pb <- PrimeMultiset.__init__ b PrimeMultiset.default_initial_value ;;
      r <- op pa pb ;;
      pc <- PrimeMultiset.__init__ c PrimeMultiset.default_initial_value ;;
      PrimeMultiset.__eq__ r pc)%py []).

Definition comparison_test (cmp : ref -> ref -> py bool) (a b : list Z)
    : option bool :=
  result
    ((pa <- PrimeMultiset.__init__ a PrimeMultiset.default_initial_value ;;
      pb <- PrimeMultiset.__init__ b PrimeMultiset.default_initial_value ;;
      cmp pa pb)%py []).

Definition membership_test (e : Z) (a : list Z) : option bool :=
  result
    ((pa <- PrimeMultiset.__init__ a PrimeMultiset.default_initial_value ;;
      PrimeMultiset.__contains__ pa e)%py []).

(** The expression [(P(a) + P(b)) - P(b) == P(a)] of the test suite, with
    its operands built in evaluation order. *)
Definition sum_then_difference (a b : list Z) : py bool :=
  (pa <- PrimeMultiset.__init__ a PrimeMultiset.default_initial_value ;;
   pb <- PrimeMultiset.__init__ b PrimeMultiset.default_initial_value ;;
   s <- PrimeMultiset.__add__ pa pb ;;
   pb' <- PrimeMultiset.__init__ b PrimeMultiset.default_initial_value ;;
   d <- PrimeMultiset.__sub__ s pb' ;;
   pa' <- PrimeMultiset.__init__ a PrimeMultiset.default_initial_value ;;
   PrimeMultiset.__eq__ d pa')%py.

(** [a <= (a | b)] and [(a & b) <= a]. *)
Definition le_union (a b : ref) : py bool :=
  (u <- PrimeMultiset.__or__ a b ;; PrimeMultiset.__le__ a u)%py.

Definition intersection_le (a b : ref) : py bool :=
  (i <- PrimeMultiset.__and__ a b ;; PrimeMultiset.__le__ i a)%py.

(** ** Notions used by the further properties *)

(** The value held by the instance a call returns. *)
Definition value_of (o : outcome ref) : option Z :=
  match o with
  | Returns r h => h !! r
  | _ => None
  end.

(** The instance a call may overwrite: [self] for the in-place operators
    and the modifying methods, none for the operators that build a new
    instance. *)
Definition target (c : call) : option ref :=
  match c with
  | CAnd _ _ | COr _ _ | CAdd _ _ | CSub _ _ => None
  | CIand a _ | CIor a _ | CIadd a _ | CIsub a _ => Some a
  | CAddElement a _ | CRemove a _ | CDiscard a _ | CClear a => Some a
  end.

(** The operands of a call are instances of the store; nothing is asked of
    their values or of the element. *)
Definition call_refs (h : heap) (c : call) : Prop :=
  match c with
  | CAnd a b | CIand a b | COr a b | CIor a b
  | CAdd a b | CIadd a b | CSub a b | CIsub a b =>
      (a < length h)%nat /\ (b < length h)%nat
  | CAddElement a _ | CRemove a _ | CDiscard a _ | CClear a =>
      (a < length h)%nat
  end.

(** [m.add(e); m.remove(e)] and [m.remove(e); m.add(e)]. *)
Definition add_then_remove (m : ref) (e : Z) : py unit :=
  (PrimeMultiset.add m e ;;; PrimeMultiset.remove m e)%py.

Definition remove_then_add (m : ref) (e : Z) : py unit :=
  (PrimeMultiset.remove m e ;;; PrimeMultiset.add m e)%py.

(** [op2(op1(a, b), c)] and [op2(a, op1(b, c))]. *)
Definition nest_left (op : ref -> ref -> py ref) (a b c : ref) : py ref :=
  (ab <- op a b ;; op ab c)%py.

Definition nest_right (op : ref -> ref -> py ref) (a b c : ref) : py ref :=
  (bc <- op b c ;; op a bc)%py.

(** [op(a, b) == c] for instances already in the store. *)
Definition equals_after (op : ref -> ref -> py ref) (a b c : ref) : py bool :=
  (r <- op a b ;; PrimeMultiset.__eq__ r c)%py.

(** [(a - b).is_empty()] *)
Definition difference_is_empty (a b : ref) : py bool :=
  (d <- PrimeMultiset.__sub__ a b ;; PrimeMultiset.is_empty d)%py.

(** [(a | b) + (a & b) == a + b] and [(a - b) + (a & b) == a]. *)
Definition union_plus_intersection (a b : ref) : py bool :=
  (u <- PrimeMultiset.__or__ a b ;;
   i <- PrimeMultiset.__and__ a b ;;
   l <- PrimeMultiset.__add__ u i ;;
   r <- PrimeMultiset.__add__ a b ;;
   PrimeMultiset.__eq__ l r)%py.

Definition difference_plus_intersection (a b : ref) : py bool :=
  (d <- PrimeMultiset.__sub__ a b ;;
   i <- PrimeMultiset.__and__ a b ;;
   l <- PrimeMultiset.__add__ d i ;;
   PrimeMultiset.__eq__ l a)%py.

(** [P(a) + P(b) == P(a ++ b)] *)
Definition sum_of_lists (a b : list Z) : py bool :=
  (pa <- PrimeMultiset.__init__ a PrimeMultiset.default_initial_value ;;
   pb <- PrimeMultiset.__init__ b PrimeMultiset.default_initial_value ;;
   s <- PrimeMultiset.__add__ pa pb ;;
   pc <- PrimeMultiset.__init__ (a ++ b) PrimeMultiset.default_initial_value ;;
   PrimeMultiset.__eq__ s pc)%py.

(** ** The self-test of the module *)

Example test_and :
  operator_test PrimeMultiset.__and__ [2; 3; 3; 3] [2; 2; 2; 3] [2; 3]
  = Some true.
Proof. reflexivity. Qed.

Example test_or :
  operator_test PrimeMultiset.__or__ [2; 2; 2] [2; 2; 3] [2; 2; 2; 3]
  = Some true.
Proof. reflexivity. Qed.

Example test_add :
  operator_test PrimeMultiset.__add__ [2; 3; 3; 23] [3; 5; 37]
    [2; 3; 3; 3; 5; 23; 37]
  = Some true.
Proof. reflexivity. Qed.

Example test_sub :
  operator_test PrimeMultiset.__sub__ [2; 2; 2; 7; 11; 11; 13] [2; 7; 11; 13]
    [2; 2; 11]
  = Some true.
Proof. reflexivity. Qed.

Example test_sub_saturating :
  operator_test PrimeMultiset.__sub__ [2; 3; 5; 7; 11] [3; 7; 13] [2; 5; 11]
  = Some true.
Proof. reflexivity. Qed.

Example test_lt :
  comparison_test PrimeMultiset.__lt__ [2; 3] [2; 2; 2; 3] = Some true
  /\ comparison_test PrimeMultiset.__lt__ [2; 3; 7] [2; 3; 7] = Some false.
Proof. split; reflexivity. Qed.

Example test_le :
  comparison_test PrimeMultiset.__le__ [2; 3] [2; 2; 2; 3] = Some true
  /\ comparison_test PrimeMultiset.__le__ [2; 3; 7] [2; 3; 7] = Some true.
Proof. split; reflexivity. Qed.

Example test_gt :
  comparison_test PrimeMultiset.__gt__ [2; 3; 7; 7; 11] [2; 7; 11] = Some true
  /\ comparison_test PrimeMultiset.__gt__ [2; 3; 7] [2; 3; 7] = Some false.
Proof. split; reflexivity. Qed.

Example test_ge :
  comparison_test PrimeMultiset.__ge__ [2; 3; 7; 7; 11] [2; 7; 11] = Some true
  /\ comparison_test PrimeMultiset.__ge__ [2; 3; 7] [2; 3; 7] = Some true.
Proof. split; reflexivity. Qed.

Example test_contains :
  membership_test 7 [2; 3; 7; 7; 11] = Some true
  /\ membership_test 5 [2; 3; 7; 7; 11] = Some false.
Proof. split; reflexivity. Qed.

Example test_multiplicity :
  multiplicity 2 24 = 3%nat /\ multiplicity 3 24 = 1%nat
  /\ multiplicity 5 24 = 0%nat.
Proof. repeat split; reflexivity. Qed.

(** ** Arithmetic of exact division, gcd and multiplicities *)

Lemma gcd_pos_l (x y : Z) : 1 <= x -> 1 <= Z.gcd x y.
Proof.
  intros Hx.
  pose proof (Z.gcd_nonneg x y) as Hn.
  destruct (Z.eq_dec (Z.gcd x y) 0) as [E|E]; [|lia].
  apply Z.gcd_eq_0_l in E. lia.
Qed.

Lemma gcd_exact_l (x y : Z) : x mod Z.gcd x y = 0.
Proof.
  destruct (Z.eq_dec (Z.gcd x y) 0) as [E|E].
  - rewrite E. apply Z.gcd_eq_0_l in E. subst x. reflexivity.
  - apply Z.mod_divide; [exact E | apply Z.gcd_divide_l].
Qed.

Lemma div_gcd_mul (x y : Z) : 1 <= x -> x = Z.gcd x y * (x / Z.gcd x y).
Proof.
  intros Hx. pose proof (gcd_pos_l x y Hx) as Hg.
  pose proof (Z.div_mod x (Z.gcd x y) ltac:(lia)) as E.
  rewrite gcd_exact_l in E. lia.
Qed.

Lemma div_gcd_pos (x y : Z) : 1 <= x -> 1 <= x / Z.gcd x y.
Proof.
  intros Hx. pose proof (gcd_pos_l x y Hx) as Hg.
  pose proof (div_gcd_mul x y Hx) as E. nia.
Qed.

Lemma exact_div_pos (x e : Z) : 1 <= x -> 1 <= e -> x mod e = 0 -> 1 <= x / e.
Proof.
  intros Hx He Hm.
  pose proof (Z.div_mod x e ltac:(lia)) as E. rewrite Hm in E. nia.
Qed.

Lemma lcm_formula_mul (x y : Z) :
  1 <= x -> lcm_formula x y = x / Z.gcd x y * y.
Proof.
  intros Hx. unfold lcm_formula.
  pose proof (gcd_pos_l x y Hx) as Hg.
  rewrite (div_gcd_mul x y Hx) at 1.
  rewrite <- Z.mul_assoc, Z.mul_comm.
  rewrite Z.div_mul by lia. reflexivity.
Qed.

Lemma lcm_formula_exact_l (x y : Z) :
  1 <= x -> 1 <= y -> lcm_formula x y mod x = 0.
Proof.
  intros Hx Hy. rewrite lcm_formula_mul by assumption.
  pose proof (div_gcd_mul y x Hy) as Ey. rewrite (Z.gcd_comm y x) in Ey.
  pose proof (div_gcd_mul x y Hx) as Ex.
  replace (x / Z.gcd x y * y) with (y / Z.gcd x y * x) by nia.
  apply Z.mod_mul. lia.
Qed.

Lemma lcm_formula_pos (x y : Z) : 1 <= x -> 1 <= y -> 1 <= lcm_formula x y.
Proof.
  intros Hx Hy. rewrite lcm_formula_mul by assumption.
  pose proof (div_gcd_pos x y Hx). nia.
Qed.

Lemma lcm_formula_lcm (x y : Z) :
  1 <= x -> 1 <= y -> lcm_formula x y = Z.lcm x y.
Proof.
  intros Hx Hy. rewrite lcm_formula_mul by assumption.
  unfold Z.lcm.
  pose proof (gcd_pos_l x y Hx) as Hg.
  pose proof (div_gcd_pos x y Hx) as Hqx.
  pose proof (div_gcd_mul x y Hx) as Ex.
  pose proof (div_gcd_pos y x Hy) as Hqy.
  pose proof (div_gcd_mul y x Hy) as Ey.
  rewrite (Z.gcd_comm y x) in Hqy, Ey.
  set (g := Z.gcd x y) in *.
  set (qx := x / g) in *. set (qy := y / g) in *.
  rewrite Z.abs_eq by nia.
  rewrite Ex at 1. rewrite Ey at 1. ring.
Qed.

Section Multiplicity.

Variable p : Z.
Hypothesis p_ge_2 : 2 <= p.

Lemma pow_p_pos (k : nat) : 1 <= p ^ Z.of_nat k.
Proof. pose proof (Z.pow_pos_nonneg p (Z.of_nat k)). lia. Qed.

Lemma pow_p_succ (k : nat) : p ^ Z.of_nat (S k) = p * p ^ Z.of_nat k.
Proof. rewrite Nat2Z.inj_succ. apply Z.pow_succ_r. lia. Qed.

Lemma pow_p_divide_le (j k : nat) :
  (j <= k)%nat -> (p ^ Z.of_nat j | p ^ Z.of_nat k).
Proof.
  intros Hjk. exists (p ^ Z.of_nat (k - j)).
  rewrite <- Z.pow_add_r by lia. f_equal. lia.
Qed.

(** The loop stops on a cofactor that [p] does not divide. *)
Lemma multiplicity_upto_decomp (fuel : nat) :
  forall n : Z, 1 <= n -> n <= Z.of_nat fuel ->
    exists m : Z,
      n = p ^ Z.of_nat (multiplicity_upto fuel p n) * m /\ ~ (p | m).
Proof.
  induction fuel as [|fuel IH]; intros n Hn Hfuel; [lia|].
  cbn [multiplicity_upto].
  destruct (Z.eqb_spec (n mod p) 0) as [E|E].
  - pose proof (Z.div_mod n p ltac:(lia)) as Hdm. rewrite E in Hdm.
    destruct (IH (n / p)) as (m & Hm & Hnd); [nia | nia |].
    exists m. split; [|exact Hnd].
    rewrite pow_p_succ, <- Z.mul_assoc, <- Hm. lia.
  - exists n. split; [cbn; lia|].
    intros Hd. apply E. apply Z.mod_divide; [lia | exact Hd].
Qed.

Lemma multiplicity_decomp (n : Z) :
  1 <= n ->
  exists m : Z, n = p ^ Z.of_nat (multiplicity p n) * m /\ ~ (p | m).
Proof.
  intros Hn. apply multiplicity_upto_decomp; [exact Hn | lia].
Qed.

(** [multiplicity p n] is the largest exponent [k] with [p ^ k | n]. *)
Lemma multiplicity_divide (n : Z) (k : nat) :
  1 <= n -> (p ^ Z.of_nat k | n) <-> (k <= multiplicity p n)%nat.
Proof.
  intros Hn.
  destruct (multiplicity_decomp n Hn) as (m & Hm & Hnd).
  set (v := multiplicity p n) in *.
  split.
  - intros Hk. destruct (le_lt_dec k v) as [Hle|Hlt]; [exact Hle|].
    exfalso. apply Hnd.
    assert (Hs : (p ^ Z.of_nat (S v) | n)).
    { eapply Z.divide_trans; [apply (pow_p_divide_le (S v) k); lia | exact Hk]. }
    destruct Hs as [c Hc]. exists c.
    rewrite pow_p_succ in Hc. pose proof (pow_p_pos v). nia.
  - intros Hle. rewrite Hm.
    apply Z.divide_mul_l. apply pow_p_divide_le. exact Hle.
Qed.

Lemma multiplicity_unique (n m : Z) (k : nat) :
  1 <= n -> n = p ^ Z.of_nat k * m -> ~ (p | m) -> multiplicity p n = k.
Proof.
  intros Hn Hm Hnd.
  assert (Hle : (k <= multiplicity p n)%nat).
  { apply multiplicity_divide; [exact Hn|]. exists m. lia. }
  destruct (le_lt_dec (multiplicity p n) k) as [Hge|Hlt]; [lia|].
  exfalso. apply Hnd.
  assert (Hs : (p ^ Z.of_nat (S k) | n)).
  { apply multiplicity_divide; [exact Hn | lia]. }
  destruct Hs as [c Hc]. exists c.
  rewrite pow_p_succ in Hc. pose proof (pow_p_pos k). nia.
Qed.

(** Intersection takes the minimum of the multiplicities. *)
Lemma multiplicity_gcd (x y : Z) :
  1 <= x -> 1 <= y ->
  multiplicity p (Z.gcd x y)
  = Nat.min (multiplicity p x) (multiplicity p y).
Proof.
  intros Hx Hy. pose proof (gcd_pos_l x y Hx) as Hg.
  apply Nat.le_antisymm.
  - apply Nat.min_glb.
    + apply multiplicity_divide; [exact Hx|].
      eapply Z.divide_trans; [|apply (Z.gcd_divide_l x y)].
      apply multiplicity_divide; [exact Hg | lia].
    + apply multiplicity_divide; [exact Hy|].
      eapply Z.divide_trans; [|apply (Z.gcd_divide_r x y)].
      apply multiplicity_divide; [exact Hg | lia].
  - apply multiplicity_divide; [exact Hg|].
    apply Z.gcd_greatest; apply multiplicity_divide; auto; lia.
Qed.

(** Multiplying adds the multiplicities of a prime. *)
Lemma multiplicity_mul (x y : Z) :
  Z.prime p -> 1 <= x -> 1 <= y ->
  multiplicity p (x * y) = (multiplicity p x + multiplicity p y)%nat.
Proof.
  intros Hp Hx Hy.
  destruct (multiplicity_decomp x Hx) as (mx & Ex & Hndx).
  destruct (multiplicity_decomp y Hy) as (my & Ey & Hndy).
  apply (multiplicity_unique (x * y) (mx * my)); [nia | |].
  - rewrite Nat2Z.inj_add, Z.pow_add_r by lia.
    rewrite Ex at 1. rewrite Ey at 1. ring.
  - intros Hd. apply (Z.divide_prime_mul mx my p Hp) in Hd. tauto.
Qed.

(** Dividing by the shared part subtracts, stopping at zero. *)
Lemma multiplicity_div_gcd (x y : Z) :
  Z.prime p -> 1 <= x -> 1 <= y ->
  multiplicity p (x / Z.gcd x y)
  = (multiplicity p x - multiplicity p y)%nat.
Proof.
  intros Hp Hx Hy.
  pose proof (multiplicity_mul (Z.gcd x y) (x / Z.gcd x y) Hp
                (gcd_pos_l x y Hx) (div_gcd_pos x y Hx)) as Hmul.
  rewrite <- (div_gcd_mul x y Hx) in Hmul.
  rewrite (multiplicity_gcd x y Hx Hy) in Hmul. lia.
Qed.

End Multiplicity.

(** ** Running the methods *)

Lemma lookup_new (h : heap) (v : Z) : (h ++ [v]) !! length h = Some v.
Proof.
  rewrite lookup_app_r by lia. rewrite Nat.sub_diag. reflexivity.
Qed.

Lemma lookup_old (h : heap) (r : ref) (x v : Z) :
  h !! r = Some x -> (h ++ [v]) !! r = Some x.
Proof. intros Hr. rewrite lookup_app_l; [exact Hr | eapply lookup_lt_Some, Hr]. Qed.

Lemma lookup_fresh (h : heap) : h !! length h = None.
Proof. apply lookup_ge_None. lia. Qed.

Lemma lookup_updated (h : heap) (r : ref) (x v : Z) :
  h !! r = Some x -> <[r := v]> h !! r = Some v.
Proof. intros Hr. apply list_lookup_insert_eq. eapply lookup_lt_Some, Hr. Qed.

Lemma snoc_snoc (h : heap) (u v : Z) : (h ++ [u]) ++ [v] = h ++ [u; v].
Proof. rewrite <- app_assoc. reflexivity. Qed.

Lemma length_snoc (h : heap) (v : Z) : length (h ++ [v]) = S (length h).
Proof. rewrite length_app. cbn. lia. Qed.

Ltac py_unfold :=
  cbv beta iota delta
    [PrimeMultiset.__init__ PrimeMultiset.__lcm
     PrimeMultiset.__and__ PrimeMultiset.__iand__
     PrimeMultiset.__or__ PrimeMultiset.__ior__
     PrimeMultiset.__add__ PrimeMultiset.__iadd__
     PrimeMultiset.__sub__ PrimeMultiset.__isub__
     PrimeMultiset.__eq__ PrimeMultiset.__ne__
     PrimeMultiset.__le__ PrimeMultiset.__ge__
     PrimeMultiset.__lt__ PrimeMultiset.__gt__
     PrimeMultiset.add PrimeMultiset.remove PrimeMultiset.discard
     PrimeMultiset.clear PrimeMultiset.is_empty PrimeMultiset.__contains__
     PrimeMultiset.default_sequence PrimeMultiset.default_initial_value
     bind ret raise get_value set_value alloc floordiv pymod divmod
     reduce_mul forget fst snd].

(** Unfold a method and feed it the attribute reads it performs. *)
Ltac py_run Ha Hb :=
  py_unfold; repeat (first [rewrite Ha | rewrite Hb]; cbv beta iota).

Ltac py_nonzero :=
  match goal with
  | |- context [?d =? 0] =>
      destruct (Z.eqb_spec d 0); [contradiction | cbv beta iota]
  end.

Section Run.

Variables (h : heap) (a b : ref) (x y : Z).
Hypothesis Ha : h !! a = Some x.
Hypothesis Hb : h !! b = Some y.

Lemma run_and :
  PrimeMultiset.__and__ a b h = Returns (length h) (h ++ [Z.gcd x y]).
Proof. py_run Ha Hb. reflexivity. Qed.

Lemma run_iand :
  PrimeMultiset.__iand__ a b h = Returns a (<[a := Z.gcd x y]> h).
Proof. py_run Ha Hb. reflexivity. Qed.

Lemma run_add :
  PrimeMultiset.__add__ a b h = Returns (length h) (h ++ [x * y]).
Proof. py_run Ha Hb. reflexivity. Qed.

Lemma run_iadd :
  PrimeMultiset.__iadd__ a b h = Returns a (<[a := x * y]> h).
Proof. py_run Ha Hb. reflexivity. Qed.

Lemma run_eq : PrimeMultiset.__eq__ a b h = Returns (x =? y) h.
Proof. py_run Ha Hb. reflexivity. Qed.

Lemma run_ne : PrimeMultiset.__ne__ a b h = Returns (negb (x =? y)) h.
Proof. py_run Ha Hb. reflexivity. Qed.

Lemma run_le :
  x <> 0 -> PrimeMultiset.__le__ a b h = Returns (y mod x =? 0) h.
Proof. intros Hx. py_run Ha Hb. py_nonzero. reflexivity. Qed.

Lemma run_ge :
  y <> 0 -> PrimeMultiset.__ge__ a b h = Returns (x mod y =? 0) h.
Proof. intros Hy. py_run Ha Hb. py_nonzero. reflexivity. Qed.

Lemma run_lt :
  x <> 0 ->
  PrimeMultiset.__lt__ a b h = Returns ((y mod x =? 0) && negb (x =? y)) h.
Proof.
  intros Hx. unfold PrimeMultiset.__lt__, bind.
  rewrite (run_le Hx). destruct (y mod x =? 0); [apply run_ne | reflexivity].
Qed.

Lemma run_gt :
  y <> 0 ->
  PrimeMultiset.__gt__ a b h = Returns ((x mod y =? 0) && negb (x =? y)) h.
Proof.
  intros Hy. unfold PrimeMultiset.__gt__, bind.
  rewrite (run_ge Hy). destruct (x mod y =? 0); [apply run_ne | reflexivity].
Qed.

Section NonZeroGcd.

Hypothesis Hg : Z.gcd x y <> 0.

Lemma run_or :
  PrimeMultiset.__or__ a b h
  = Returns (length h) (h ++ [lcm_formula x y]).
Proof. py_run Ha Hb. py_nonzero. reflexivity. Qed.

Lemma run_ior :
  PrimeMultiset.__ior__ a b h = Returns a (<[a := lcm_formula x y]> h).
Proof. py_run Ha Hb. py_nonzero. rewrite Ha. reflexivity. Qed.

Lemma run_sub :
  PrimeMultiset.__sub__ a b h
  = Returns (S (length h)) (h ++ [Z.gcd x y; x / Z.gcd x y]).
Proof.
  py_run Ha Hb. rewrite lookup_new. py_nonzero.
  rewrite length_snoc, snoc_snoc. reflexivity.
Qed.

Lemma run_isub :
  PrimeMultiset.__isub__ a b h
  = Returns a (<[a := x / Z.gcd x y]> (h ++ [Z.gcd x y])).
Proof.
  py_run Ha Hb. rewrite lookup_new. py_nonzero.
  rewrite (lookup_old h a x _ Ha). reflexivity.
Qed.

End NonZeroGcd.

Lemma run_is_empty : PrimeMultiset.is_empty a h = Returns (x =? 1) h.
Proof. py_run Ha Hb. reflexivity. Qed.

Lemma run_add_element (e : Z) :
  PrimeMultiset.add a e h = Returns tt (<[a := x * e]> h).
Proof. py_run Ha Hb. reflexivity. Qed.

Lemma run_clear : PrimeMultiset.clear a h = Returns tt (<[a := 1]> h).
Proof. py_run Ha Hb. reflexivity. Qed.

Lemma run_remove (e : Z) :
  e <> 0 ->
  PrimeMultiset.remove a e h
  = if x mod e =? 0 then Returns tt (<[a := x / e]> h)
    else Raises (KeyError e) h.
Proof.
  intros He. py_run Ha Hb. py_nonzero.
  destruct (x mod e =? 0); cbn; rewrite ?Ha; reflexivity.
Qed.

Lemma run_discard (e : Z) :
  e <> 0 ->
  PrimeMultiset.discard a e h
  = Returns tt (if x mod e =? 0 then <[a := x / e]> h else h).
Proof.
  intros He. py_run Ha Hb. py_nonzero.
  destruct (x mod e =? 0); rewrite ?Ha; reflexivity.
Qed.

Lemma run_discard_zero :
  PrimeMultiset.discard a 0 h = Raises ZeroDivisionError h.
Proof. py_run Ha Hb. reflexivity. Qed.

End Run.

Lemma run_init (sequence : list Z) (initial_value : Z) (h : heap) :
  PrimeMultiset.__init__ sequence initial_value h
  = Returns (length h) (h ++ [reduce_mul sequence initial_value]).
Proof. reflexivity. Qed.

Lemma reduce_mul_product (sequence : list Z) (initial_value : Z) :
  reduce_mul sequence initial_value = initial_value * product sequence.
Proof.
  unfold reduce_mul, product. revert initial_value.
  induction sequence as [|e sequence IH]; intros initial_value; cbn.
  - lia.
  - rewrite IH. unfold foldr. lia.
Qed.

Lemma product_pos (sequence : list Z) :
  Forall (fun e => 1 <= e) sequence -> 1 <= product sequence.
Proof.
  unfold product. induction 1 as [|e sequence He _ IH]; cbn in *; nia.
Qed.

Lemma product_gt_1 (sequence : list Z) :
  sequence <> [] -> Forall (fun e => 1 < e) sequence -> 1 < product sequence.
Proof.
  intros Hne Hall. destruct Hall as [|e sequence He Hall]; [contradiction|].
  assert (Hp : 1 <= product sequence).
  { apply product_pos. eapply Forall_impl; [exact Hall|]. cbn. lia. }
  unfold product in *. cbn. nia.
Qed.

Lemma heap_ok_snoc (h : heap) (v : Z) :
  heap_ok h -> 1 <= v -> heap_ok (h ++ [v]).
Proof.
  intros Hh Hv. unfold heap_ok. rewrite Forall_app, Forall_singleton.
  split; assumption.
Qed.

Lemma heap_ok_update (h : heap) (r : ref) (v : Z) :
  heap_ok h -> 1 <= v -> heap_ok (<[r := v]> h).
Proof. intros Hh Hv. apply Forall_insert; assumption. Qed.

Lemma heap_ok_lookup (h : heap) (r : ref) :
  heap_ok h -> (r < length h)%nat -> exists v, h !! r = Some v /\ 1 <= v.
Proof.
  intros Hh Hr. destruct (lookup_lt_is_Some_2 h r Hr) as [v Hv].
  exists v. split; [exact Hv|].
  exact (proj1 (Forall_lookup _ h) Hh r v Hv).
Qed.

(** ** The operations against the specification *)

Section Operators.

Variables (h : heap) (a b : ref) (x y : Z).
Hypothesis Ha : positive_at h a x.
Hypothesis Hb : positive_at h b y.

(** C1: for multisets of values [x, y >= 1], [a - b] is a new instance of
    value [x / gcd x y]; the division leaves no remainder, and for every
    prime [p] the multiplicity of [p] in the result is
    [max 0 (multiplicity in a - multiplicity in b)], whichever of the two
    multiplicities is the larger. *)
Theorem difference_saturating :
  PrimeMultiset.__sub__ a b h
  = Returns (S (length h)) (h ++ [Z.gcd x y; x / Z.gcd x y])
  /\ x mod Z.gcd x y = 0
  /\ forall p : Z, Z.prime p ->
       Z.of_nat (multiplicity p (x / Z.gcd x y))
       = Z.max 0 (Z.of_nat (multiplicity p x) - Z.of_nat (multiplicity p y)).
Proof.
  destruct Ha as [Hla Hx], Hb as [Hlb Hy].
  pose proof (gcd_pos_l x y Hx) as Hg.
  split; [apply run_sub; auto; lia|].
  split; [apply gcd_exact_l|].
  intros p Hp.
  rewrite (multiplicity_div_gcd p (Z.prime_ge_2 p Hp) x y Hp Hx Hy). lia.
Qed.

(** C4: for multisets of values [x, y >= 1], [a <= b] is [y % x == 0],
    [a >= b] is [x % y == 0], [a < b] is [a <= b and a != b], and [a > b]
    is [a >= b and a != b]; none of them touches the store. *)
Theorem inclusion_operators :
  PrimeMultiset.__le__ a b h = Returns (y mod x =? 0) h
  /\ PrimeMultiset.__ge__ a b h = Returns (x mod y =? 0) h
  /\ PrimeMultiset.__ne__ a b h = Returns (negb (x =? y)) h
  /\ PrimeMultiset.__lt__ a b h
     = Returns ((y mod x =? 0) && negb (x =? y)) h
  /\ PrimeMultiset.__gt__ a b h
     = Returns ((x mod y =? 0) && negb (x =? y)) h.
Proof.
  destruct Ha as [Hla Hx], Hb as [Hlb Hy].
  repeat split.
  - apply run_le; auto; lia.
  - apply run_ge; auto; lia.
  - apply run_ne; auto.
  - apply run_lt; auto; lia.
  - apply run_gt; auto; lia.
Qed.

(** C5: for multisets of values [x, y >= 1], [a & b], [a | b] and [a + b]
    are new instances of values [gcd x y], [x * y / gcd x y] (which is the
    least common multiple) and [x * y]. *)
Theorem operator_values :
  PrimeMultiset.__and__ a b h = Returns (length h) (h ++ [Z.gcd x y])
  /\ PrimeMultiset.__or__ a b h
     = Returns (length h) (h ++ [x * y / Z.gcd x y])
  /\ x * y / Z.gcd x y = Z.lcm x y
  /\ PrimeMultiset.__add__ a b h = Returns (length h) (h ++ [x * y])
  /\ h !! length h = None.
Proof.
  destruct Ha as [Hla Hx], Hb as [Hlb Hy].
  pose proof (gcd_pos_l x y Hx) as Hg.
  split; [apply run_and; auto|].
  split; [apply (run_or h a b x y); auto; lia|].
  split; [apply (lcm_formula_lcm x y); assumption|].
  split; [apply run_add; auto | apply lookup_fresh].
Qed.

(** C7: for multisets of values [x, y >= 1], each of [&=], [|=], [+=] and
    [-=] returns its left operand, the very reference it was given, and
    leaves in it the value that [&], [|], [+] and [-] put in a new
    instance. *)
Theorem inplace_operators :
  inplace_agrees PrimeMultiset.__iand__ PrimeMultiset.__and__ h a b
  /\ inplace_agrees PrimeMultiset.__ior__ PrimeMultiset.__or__ h a b
  /\ inplace_agrees PrimeMultiset.__iadd__ PrimeMultiset.__add__ h a b
  /\ inplace_agrees PrimeMultiset.__isub__ PrimeMultiset.__sub__ h a b.
Proof.
  destruct Ha as [Hla Hx], Hb as [Hlb Hy].
  assert (Hg : Z.gcd x y <> 0) by (pose proof (gcd_pos_l x y Hx); lia).
  repeat split.
  - exists (Z.gcd x y). split.
    + exists (length h), (h ++ [Z.gcd x y]).
      rewrite (run_and h a b x y Hla Hlb).
      auto using lookup_fresh, lookup_new.
    + exists (<[a := Z.gcd x y]> h).
      rewrite (run_iand h a b x y Hla Hlb).
      eauto using lookup_updated.
  - exists (lcm_formula x y). split.
    + exists (length h), (h ++ [lcm_formula x y]).
      rewrite (run_or h a b x y Hla Hlb Hg).
      auto using lookup_fresh, lookup_new.
    + exists (<[a := lcm_formula x y]> h).
      rewrite (run_ior h a b x y Hla Hlb Hg).
      eauto using lookup_updated.
  - exists (x * y). split.
    + exists (length h), (h ++ [x * y]).
      rewrite (run_add h a b x y Hla Hlb).
      auto using lookup_fresh, lookup_new.
    + exists (<[a := x * y]> h).
      rewrite (run_iadd h a b x y Hla Hlb).
      eauto using lookup_updated.
  - exists (x / Z.gcd x y). split.
    + exists (S (length h)), (h ++ [Z.gcd x y; x / Z.gcd x y]).
      rewrite (run_sub h a b x y Hla Hlb Hg).
      split; [reflexivity|]. split; [apply lookup_ge_None; lia|].
      rewrite <- snoc_snoc, <- (length_snoc h (Z.gcd x y)).
      apply lookup_new.
    + exists (<[a := x / Z.gcd x y]> (h ++ [Z.gcd x y])).
      rewrite (run_isub h a b x y Hla Hlb Hg).
      split; [reflexivity|].
      apply (lookup_updated _ a x). apply lookup_old, Hla.
Qed.

(** C9: for multisets of values [x, y >= 1], [a <= (a | b)] and
    [(a & b) <= a] both evaluate to true. *)
Theorem inclusion_consistency :
  le_union a b h = Returns true (h ++ [x * y / Z.gcd x y])
  /\ intersection_le a b h = Returns true (h ++ [Z.gcd x y]).
Proof.
  destruct Ha as [Hla Hx], Hb as [Hlb Hy].
  pose proof (gcd_pos_l x y Hx) as Hg.
  unfold le_union, intersection_le, bind. split.
  - rewrite (run_or h a b x y Hla Hlb) by lia.
    rewrite (run_le _ a (length h) x (lcm_formula x y)
               (lookup_old h a x _ Hla) (lookup_new h _)) by lia.
    rewrite (lcm_formula_exact_l x y Hx Hy). reflexivity.
  - rewrite (run_and h a b x y Hla Hlb).
    rewrite (run_le _ (length h) a (Z.gcd x y) x
               (lookup_new h _) (lookup_old h a x _ Hla)) by lia.
    rewrite gcd_exact_l. reflexivity.
Qed.

End Operators.

(** ** Element-level methods *)

(** C2: for a multiset of value [x >= 1] and an element [e >= 1],
    [remove(e)] raises [KeyError(e)] exactly when [e] does not divide [x],
    and the store is then the one it started from; it returns with the value
    replaced by [x / e] exactly when [e] divides [x]. *)
Theorem remove_spec (h : heap) (m : ref) (x e : Z) :
  positive_at h m x -> 1 <= e ->
  (x mod e <> 0 <-> PrimeMultiset.remove m e h = Raises (KeyError e) h)
  /\ (x mod e = 0
      <-> PrimeMultiset.remove m e h = Returns tt (<[m := x / e]> h))
  /\ <[m := x / e]> h !! m = Some (x / e).
Proof.
  intros [Hm Hx] He.
  rewrite (run_remove h m x Hm e) by lia.
  split; [|split].
  - destruct (Z.eqb_spec (x mod e) 0) as [E|E].
    + split; [contradiction | discriminate].
    + split; [reflexivity | intros _; exact E].
  - destruct (Z.eqb_spec (x mod e) 0) as [E|E].
    + split; [reflexivity | intros _; exact E].
    + split; [contradiction | discriminate].
  - eapply lookup_updated, Hm.
Qed.

(** C3, as the code has it: for every multiset and every integer element
    [e] other than zero, [discard(e)] returns without raising; the value
    becomes [x / e] when [e] divides it and is left alone otherwise. *)
Theorem discard_spec (h : heap) (m : ref) (x e : Z) :
  h !! m = Some x -> e <> 0 ->
  PrimeMultiset.discard m e h
  = Returns tt (if x mod e =? 0 then <[m := x / e]> h else h).
Proof. intros Hm He. apply run_discard; assumption. Qed.

(** C3 fails for the element zero: [divmod] raises before the remainder is
    looked at. *)
Lemma discard_zero_raises :
  PrimeMultiset.discard 0%nat 0 [6] = Raises ZeroDivisionError [6].
Proof. reflexivity. Qed.

(** ** Construction and emptiness *)

(** C6: construction stores [initial_value * product sequence], the empty
    product being 1, in any store, the empty one included;
    [PrimeMultiset()] has value 1 and is empty; a multiset built from a
    non-empty list of integers above 1 is not empty; [is_empty] on an
    instance answers whether its value is 1. *)
Theorem construction_spec (h : heap) (sequence : list Z) (initial_value : Z)
    (primes : list Z) :
  primes <> [] -> Forall (fun e => 1 < e) primes ->
  PrimeMultiset.__init__ sequence initial_value h
  = Returns (length h) (h ++ [initial_value * product sequence])
  /\ product [] = 1
  /\ bind (PrimeMultiset.__init__ PrimeMultiset.default_sequence
             PrimeMultiset.default_initial_value) PrimeMultiset.is_empty h
     = Returns true (h ++ [1])
  /\ bind (PrimeMultiset.__init__ primes PrimeMultiset.default_initial_value)
       PrimeMultiset.is_empty h
     = Returns false (h ++ [product primes])
  /\ forall (r : ref) (x : Z),
       h !! r = Some x -> PrimeMultiset.is_empty r h = Returns (x =? 1) h.
Proof.
  intros Hne Hall.
  split; [rewrite run_init, reduce_mul_product; reflexivity|].
  split; [reflexivity|].
  split.
  - unfold bind. rewrite run_init.
    rewrite (run_is_empty _ _ _ (lookup_new h _)). reflexivity.
  - split; [|intros r x Hr; apply run_is_empty; exact Hr].
    unfold bind. rewrite run_init, reduce_mul_product.
    unfold PrimeMultiset.default_initial_value. rewrite Z.mul_1_l.
    rewrite (run_is_empty _ _ _ (lookup_new h _)).
    pose proof (product_gt_1 primes Hne Hall) as Hp.
    destruct (Z.eqb_spec (product primes) 1); [lia | reflexivity].
Qed.

(** ** Sum followed by difference *)

(** C8: for lists [a], [b] of positive integers,
    [(P(a) + P(b)) - P(b) == P(a)] evaluates to true. *)
Theorem sum_difference_inverse (h : heap) (a b : list Z) :
  Forall (fun e => 1 <= e) a -> Forall (fun e => 1 <= e) b ->
  exists h' : heap, sum_then_difference a b h = Returns true h'.
Proof.
  intros Hpa Hpb.
  pose proof (product_pos a Hpa) as HA.
  pose proof (product_pos b Hpb) as HB.
  unfold sum_then_difference, bind.
  rewrite !run_init, !reduce_mul_product.
  unfold PrimeMultiset.default_initial_value. rewrite !Z.mul_1_l.
  set (A := product a) in *. set (B := product b) in *.
  set (h1 := h ++ [A]). set (h2 := h1 ++ [B]).
  assert (E1 : h2 !! length h = Some A).
  { apply lookup_old, lookup_new. }
  assert (E2 : h2 !! length h1 = Some B) by apply lookup_new.
  rewrite (run_add h2 _ _ A B E1 E2).
  rewrite run_init, reduce_mul_product, Z.mul_1_l. fold B.
  set (h3 := h2 ++ [A * B]). set (h4 := h3 ++ [B]).
  assert (E3 : h4 !! length h2 = Some (A * B)).
  { apply lookup_old, lookup_new. }
  assert (E4 : h4 !! length h3 = Some B) by apply lookup_new.
  assert (Hg : Z.gcd (A * B) B = B).
  { rewrite Z.gcd_comm. apply Z.divide_gcd_iff; [lia|]. exists A. ring. }
  rewrite (run_sub h4 _ _ (A * B) B E3 E4) by (rewrite Hg; lia).
  rewrite Hg, Z.div_mul by lia.
  rewrite run_init, reduce_mul_product, Z.mul_1_l. fold A.
  set (h5 := h4 ++ [B; A]).
  assert (E5 : (h5 ++ [A]) !! S (length h4) = Some A).
  { apply lookup_old. unfold h5.
    rewrite <- snoc_snoc, <- (length_snoc h4 B). apply lookup_new. }
  rewrite (run_eq _ _ _ A A E5 (lookup_new h5 A)).
  rewrite Z.eqb_refl. eexists. reflexivity.
Qed.

(** ** The invariant [value >= 1] *)

Lemma final_heap_forget {A : Type} (m : py A) (h : heap) :
  final_heap (forget m h) = final_heap (m h).
Proof. unfold forget, bind, ret. destruct (m h); reflexivity. Qed.

(** C10: in a store whose instances all have value at least 1, every
    operator, in-place operator and modifying method, called on instances of
    the store with an element of at least 1, ends (by returning or, for
    [remove], possibly by raising) in a store whose instances, old and new,
    all have value at least 1. *)
Theorem operations_preserve_invariant (h : heap) (c : call) :
  heap_ok h -> call_wf h c ->
  exists h' : heap, final_heap (exec c h) = Some h' /\ heap_ok h'.
Proof.
  intros Hok Hwf.
  destruct c as [a b|a b|a b|a b|a b|a b|a b|a b|a e|a e|a e|a]; cbn in Hwf;
    try (destruct Hwf as [Hwa Hwb]);
    destruct (heap_ok_lookup h a Hok ltac:(assumption)) as (x & Hla & Hx);
    try (destruct (heap_ok_lookup h b Hok Hwb) as (y & Hlb & Hy);
         pose proof (gcd_pos_l x y Hx) as Hg;
         pose proof (div_gcd_pos x y Hx) as Hq;
         pose proof (lcm_formula_pos x y Hx Hy) as Hl);
    cbn [exec]; rewrite ?final_heap_forget.
  - rewrite (run_and h a b x y Hla Hlb). eexists. split; [reflexivity|].
    apply heap_ok_snoc; assumption.
  - rewrite (run_iand h a b x y Hla Hlb). eexists. split; [reflexivity|].
    apply heap_ok_update; assumption.
  - rewrite (run_or h a b x y Hla Hlb) by lia. eexists. split; [reflexivity|].
    apply heap_ok_snoc; assumption.
  - rewrite (run_ior h a b x y Hla Hlb) by lia. eexists. split; [reflexivity|].
    apply heap_ok_update; assumption.
  - rewrite (run_add h a b x y Hla Hlb). eexists. split; [reflexivity|].
    apply heap_ok_snoc; [assumption | nia].
  - rewrite (run_iadd h a b x y Hla Hlb). eexists. split; [reflexivity|].
    apply heap_ok_update; [assumption | nia].
  - rewrite (run_sub h a b x y Hla Hlb) by lia. eexists. split; [reflexivity|].
    rewrite <- snoc_snoc. auto using heap_ok_snoc.
  - rewrite (run_isub h a b x y Hla Hlb) by lia. eexists. split; [reflexivity|].
    auto using heap_ok_update, heap_ok_snoc.
  - rewrite (run_add_element h a x Hla e). eexists. split; [reflexivity|].
    apply heap_ok_update; [assumption | nia].
  - rewrite (run_remove h a x Hla e) by lia.
    destruct (Z.eqb_spec (x mod e) 0) as [E|E];
      eexists; (split; [reflexivity|]); [|assumption].
    apply heap_ok_update; [assumption | apply exact_div_pos; assumption].
  - rewrite (run_discard h a x Hla e) by lia. eexists. split; [reflexivity|].
    destruct (Z.eqb_spec (x mod e) 0) as [E|E]; [|assumption].
    apply heap_ok_update; [assumption | apply exact_div_pos; assumption].
  - rewrite (run_clear h a x Hla). eexists. split; [reflexivity|].
    apply heap_ok_update; [assumption | lia].
Qed.

(** ** The theorems at concrete stores *)

(** [12 = 2^2 * 3] and [8 = 2^3]: the right operand holds more copies of 2
    than the left one. *)
Lemma positive_at_12 : positive_at [12; 8] 0%nat 12.
Proof. split; [reflexivity | lia]. Defined.

Lemma positive_at_8 : positive_at [12; 8] 1%nat 8.
Proof. split; [reflexivity | lia]. Defined.

Lemma difference_saturating_witness :
  positive_at [12; 8] 0%nat 12 /\ positive_at [12; 8] 1%nat 8
  /\ PrimeMultiset.__sub__ 0%nat 1%nat [12; 8] = Returns 3%nat [12; 8; 4; 3]
  /\ 12 mod Z.gcd 12 8 = 0
  /\ forall p : Z, Z.prime p ->
       Z.of_nat (multiplicity p (12 / Z.gcd 12 8))
       = Z.max 0 (Z.of_nat (multiplicity p 12) - Z.of_nat (multiplicity p 8)).
Proof.
  split; [exact positive_at_12|]. split; [exact positive_at_8|].
  exact (difference_saturating [12; 8] 0%nat 1%nat 12 8
           positive_at_12 positive_at_8).
Defined.

Lemma inclusion_operators_witness :
  positive_at [12; 8] 0%nat 12 /\ positive_at [12; 8] 1%nat 8
  /\ PrimeMultiset.__le__ 0%nat 1%nat [12; 8] = Returns false [12; 8]
  /\ PrimeMultiset.__ge__ 0%nat 1%nat [12; 8] = Returns false [12; 8]
  /\ PrimeMultiset.__ne__ 0%nat 1%nat [12; 8] = Returns true [12; 8]
  /\ PrimeMultiset.__lt__ 0%nat 1%nat [12; 8] = Returns false [12; 8]
  /\ PrimeMultiset.__gt__ 0%nat 1%nat [12; 8] = Returns false [12; 8].
Proof.
  split; [exact positive_at_12|]. split; [exact positive_at_8|].
  exact (inclusion_operators [12; 8] 0%nat 1%nat 12 8
           positive_at_12 positive_at_8).
Defined.

Lemma operator_values_witness :
  positive_at [12; 8] 0%nat 12 /\ positive_at [12; 8] 1%nat 8
  /\ PrimeMultiset.__and__ 0%nat 1%nat [12; 8] = Returns 2%nat [12; 8; 4]
  /\ PrimeMultiset.__or__ 0%nat 1%nat [12; 8] = Returns 2%nat [12; 8; 24]
  /\ 12 * 8 / Z.gcd 12 8 = Z.lcm 12 8
  /\ PrimeMultiset.__add__ 0%nat 1%nat [12; 8] = Returns 2%nat [12; 8; 96]
  /\ [12; 8] !! 2%nat = None.
Proof.
  split; [exact positive_at_12|]. split; [exact positive_at_8|].
  exact (operator_values [12; 8] 0%nat 1%nat 12 8
           positive_at_12 positive_at_8).
Defined.

Lemma inplace_operators_witness :
  positive_at [12; 8] 0%nat 12 /\ positive_at [12; 8] 1%nat 8
  /\ inplace_agrees PrimeMultiset.__iand__ PrimeMultiset.__and__
       [12; 8] 0%nat 1%nat
  /\ inplace_agrees PrimeMultiset.__ior__ PrimeMultiset.__or__
       [12; 8] 0%nat 1%nat
  /\ inplace_agrees PrimeMultiset.__iadd__ PrimeMultiset.__add__
       [12; 8] 0%nat 1%nat
  /\ inplace_agrees PrimeMultiset.__isub__ PrimeMultiset.__sub__
       [12; 8] 0%nat 1%nat.
Proof.
  split; [exact positive_at_12|]. split; [exact positive_at_8|].
  exact (inplace_operators [12; 8] 0%nat 1%nat 12 8
           positive_at_12 positive_at_8).
Defined.

Lemma inclusion_consistency_witness :
  positive_at [12; 8] 0%nat 12 /\ positive_at [12; 8] 1%nat 8
  /\ le_union 0%nat 1%nat [12; 8] = Returns true [12; 8; 24]
  /\ intersection_le 0%nat 1%nat [12; 8] = Returns true [12; 8; 4].
Proof.
  split; [exact positive_at_12|]. split; [exact positive_at_8|].
  exact (inclusion_consistency [12; 8] 0%nat 1%nat 12 8
           positive_at_12 positive_at_8).
Defined.

(** [m = P([2, 3])]: 5 is missing, 3 is present. *)
Lemma remove_spec_witness :
  positive_at [6] 0%nat 6 /\ 1 <= 5
  /\ (6 mod 5 <> 0
      <-> PrimeMultiset.remove 0%nat 5 [6] = Raises (KeyError 5) [6])
  /\ (6 mod 5 = 0
      <-> PrimeMultiset.remove 0%nat 5 [6]
          = Returns tt (<[0%nat := 6 / 5]> [6]))
  /\ <[0%nat := 6 / 5]> [6] !! 0%nat = Some (6 / 5).
Proof.
  assert (Hm : positive_at [6] 0%nat 6) by (split; [reflexivity | lia]).
  assert (He : 1 <= 5) by lia.
  split; [exact Hm|]. split; [exact He|].
  exact (remove_spec [6] 0%nat 6 5 Hm He).
Defined.

Lemma discard_spec_witness :
  [6] !! 0%nat = Some 6 /\ 3 <> 0
  /\ PrimeMultiset.discard 0%nat 3 [6] = Returns tt [2].
Proof.
  assert (He : 3 <> 0) by lia.
  split; [reflexivity|]. split; [exact He|].
  exact (discard_spec [6] 0%nat 6 3 eq_refl He).
Defined.

Lemma construction_spec_witness :
  [2; 3; 7] <> [] /\ Forall (fun e => 1 < e) [2; 3; 7]
  /\ PrimeMultiset.__init__ [2; 2; 11] 3 [] = Returns 0%nat [132]
  /\ product [] = 1
  /\ bind (PrimeMultiset.__init__ PrimeMultiset.default_sequence
             PrimeMultiset.default_initial_value) PrimeMultiset.is_empty []
     = Returns true [1]
  /\ bind (PrimeMultiset.__init__ [2; 3; 7]
             PrimeMultiset.default_initial_value) PrimeMultiset.is_empty []
     = Returns false [42]
  /\ forall (r : ref) (x : Z),
       ([] : heap) !! r = Some x ->
       PrimeMultiset.is_empty r [] = Returns (x =? 1) [].
Proof.
  assert (Hne : [2; 3; 7] <> []) by discriminate.
  assert (Hall : Forall (fun e => 1 < e) [2; 3; 7]).
  { repeat constructor. }
  split; [exact Hne|]. split; [exact Hall|].
  exact (construction_spec [] [2; 2; 11] 3 [2; 3; 7] Hne Hall).
Defined.

Lemma sum_difference_inverse_witness :
  Forall (fun e => 1 <= e) [2; 3; 3] /\ Forall (fun e => 1 <= e) [3; 5]
  /\ exists h' : heap, sum_then_difference [2; 3; 3] [3; 5] [] = Returns true h'.
Proof.
  assert (Ha : Forall (fun e => 1 <= e) [2; 3; 3]).
  { repeat constructor; lia. }
  assert (Hb : Forall (fun e => 1 <= e) [3; 5]).
  { repeat constructor; lia. }
  split; [exact Ha|]. split; [exact Hb|].
  exact (sum_difference_inverse [] [2; 3; 3] [3; 5] Ha Hb).
Defined.

(** A [remove] that fails: 4 does not divide 6. *)
Lemma operations_preserve_invariant_witness :
  heap_ok [6; 4] /\ call_wf [6; 4] (CRemove 0%nat 4)
  /\ exists h' : heap,
       final_heap (exec (CRemove 0%nat 4) [6; 4]) = Some h' /\ heap_ok h'.
Proof.
  assert (Hok : heap_ok [6; 4]).
  { repeat constructor; lia. }
  assert (Hwf : call_wf [6; 4] (CRemove 0%nat 4)).
  { split; [cbn; lia | lia]. }
  split; [exact Hok|]. split; [exact Hwf|].
  exact (operations_preserve_invariant [6; 4] (CRemove 0%nat 4) Hok Hwf).
Defined.

(** * Further properties of the class *)

(** ** Running the methods on arbitrary integers *)

Section RunAny.

Variables (h : heap) (a b : ref) (x y : Z).
Hypothesis Ha : h !! a = Some x.
Hypothesis Hb : h !! b = Some y.

Lemma run_or_any :
  PrimeMultiset.__or__ a b h
  = if Z.gcd x y =? 0 then Raises ZeroDivisionError h
    else Returns (length h) (h ++ [x * y / Z.gcd x y]).
Proof. py_run Ha Hb. destruct (Z.gcd x y =? 0); reflexivity. Qed.

Lemma run_ior_any :
  PrimeMultiset.__ior__ a b h
  = if Z.gcd x y =? 0 then Raises ZeroDivisionError h
    else Returns a (<[a := x * y / Z.gcd x y]> h).
Proof.
  py_run Ha Hb. destruct (Z.gcd x y =? 0); cbv beta iota; rewrite ?Ha;
    reflexivity.
Qed.

Lemma run_sub_any :
  PrimeMultiset.__sub__ a b h
  = if Z.gcd x y =? 0 then Raises ZeroDivisionError (h ++ [Z.gcd x y])
    else Returns (S (length h)) (h ++ [Z.gcd x y; x / Z.gcd x y]).
Proof.
  py_run Ha Hb. rewrite lookup_new. cbn [fold_left].
  destruct (Z.gcd x y =? 0); cbv beta iota; [reflexivity|].
  rewrite length_snoc, snoc_snoc. reflexivity.
Qed.

Lemma run_isub_any :
  PrimeMultiset.__isub__ a b h
  = if Z.gcd x y =? 0 then Raises ZeroDivisionError (h ++ [Z.gcd x y])
    else Returns a (<[a := x / Z.gcd x y]> (h ++ [Z.gcd x y])).
Proof.
  py_run Ha Hb. rewrite lookup_new. cbn [fold_left].
  destruct (Z.gcd x y =? 0); cbv beta iota; [reflexivity|].
  rewrite (lookup_old h a x _ Ha). reflexivity.
Qed.

Lemma run_le_any :
  PrimeMultiset.__le__ a b h
  = if x =? 0 then Raises ZeroDivisionError h
    else Returns (y mod x =? 0) h.
Proof. py_run Ha Hb. destruct (x =? 0); reflexivity. Qed.

Lemma run_ge_any :
  PrimeMultiset.__ge__ a b h
  = if y =? 0 then Raises ZeroDivisionError h
    else Returns (x mod y =? 0) h.
Proof. py_run Ha Hb. destruct (y =? 0); reflexivity. Qed.

Lemma run_lt_any :
  PrimeMultiset.__lt__ a b h
  = if x =? 0 then Raises ZeroDivisionError h
    else Returns ((y mod x =? 0) && negb (x =? y)) h.
Proof.
  unfold PrimeMultiset.__lt__, bind. rewrite run_le_any.
  destruct (x =? 0); [reflexivity|].
  destruct (y mod x =? 0); [apply run_ne; assumption | reflexivity].
Qed.

Lemma run_gt_any :
  PrimeMultiset.__gt__ a b h
  = if y =? 0 then Raises ZeroDivisionError h
    else Returns ((x mod y =? 0) && negb (x =? y)) h.
Proof.
  unfold PrimeMultiset.__gt__, bind. rewrite run_ge_any.
  destruct (y =? 0); [reflexivity|].
  destruct (x mod y =? 0); [apply run_ne; assumption | reflexivity].
Qed.

Lemma run_contains_any (e : Z) :
  PrimeMultiset.__contains__ a e h
  = if e =? 0 then Raises ZeroDivisionError h
    else Returns (x mod e =? 0) h.
Proof. py_run Ha Hb. destruct (e =? 0); reflexivity. Qed.

Lemma run_remove_any (e : Z) :
  PrimeMultiset.remove a e h
  = if e =? 0 then Raises ZeroDivisionError h
    else if x mod e =? 0 then Returns tt (<[a := x / e]> h)
    else Raises (KeyError e) h.
Proof.
  py_run Ha Hb. destruct (e =? 0); cbv beta iota; [reflexivity|].
  destruct (x mod e =? 0); cbn; rewrite ?Ha; reflexivity.
Qed.

Lemma run_discard_any (e : Z) :
  PrimeMultiset.discard a e h
  = if e =? 0 then Raises ZeroDivisionError h
    else Returns tt (if x mod e =? 0 then <[a := x / e]> h else h).
Proof.
  py_run Ha Hb. destruct (e =? 0); cbv beta iota; [reflexivity|].
  destruct (x mod e =? 0); rewrite ?Ha; reflexivity.
Qed.

End RunAny.

Lemma gcd_eqb_0 (x y : Z) : (Z.gcd x y =? 0) = (x =? 0) && (y =? 0).
Proof.
  destruct (Z.eqb_spec x 0) as [->|Hx].
  - rewrite Z.gcd_0_l. cbn.
    destruct (Z.eqb_spec y 0) as [->|Hy]; [reflexivity|].
    apply Z.eqb_neq. lia.
  - apply Z.eqb_neq. intros E. apply Z.gcd_eq_0_l in E. contradiction.
Qed.

Lemma lookup_other_update (h : heap) (r s : ref) (v w : Z) :
  s <> r -> h !! r = Some v -> <[s := w]> h !! r = Some v.
Proof.
  intros Hne Hr. rewrite <- Hr. apply list_lookup_insert_ne. exact Hne.
Qed.

Lemma update_same (h : heap) (r : ref) (x : Z) :
  h !! r = Some x -> <[r := x]> h = h.
Proof. apply list_insert_id. Qed.

Lemma update_update (h : heap) (r : ref) (v w : Z) :
  <[r := w]> (<[r := v]> h) = <[r := w]> h.
Proof. apply list_insert_insert_eq. Qed.

(** ** What a call leaves alone *)

Ltac kept_instance :=
  let r := fresh "r" in
  let v := fresh "v" in
  let Hr := fresh "Hr" in
  let Ht := fresh "Ht" in
  intros r v Hr Ht; cbn [target] in Ht;
  try match type of Ht with
      | Some ?s <> Some r => assert (s <> r) by congruence
      end;
  rewrite <- ?snoc_snoc;
  repeat first
    [ assumption
    | apply lookup_old
    | apply lookup_other_update; [assumption|] ].

(** X1: whatever integers the operands hold, a call on instances of the
    store ends, by returning or by raising, in a store where every instance
    that existed before still holds its value, except the [self] of an
    in-place operator or modifying method.  The operators [&], [|], [+], [-]
    in particular never touch their operands. *)
Theorem calls_keep_other_instances (h : heap) (c : call) :
  call_refs h c ->
  exists h' : heap,
    final_heap (exec c h) = Some h'
    /\ forall (r : ref) (v : Z),
         h !! r = Some v -> target c <> Some r -> h' !! r = Some v.
Proof.
  intros Hrefs.
  destruct c as [a b|a b|a b|a b|a b|a b|a b|a b|a e|a e|a e|a];
    cbn [call_refs] in Hrefs;
    try (destruct Hrefs as [Hwa Hwb];
         destruct (lookup_lt_is_Some_2 h b Hwb) as [y Hlb]);
    destruct (lookup_lt_is_Some_2 h a ltac:(assumption)) as [x Hla];
    cbn [exec]; rewrite ?final_heap_forget.
  - rewrite (run_and h a b x y Hla Hlb). eexists. split; [reflexivity|].
    kept_instance.
  - rewrite (run_iand h a b x y Hla Hlb). eexists. split; [reflexivity|].
    kept_instance.
  - rewrite (run_or_any h a b x y Hla Hlb).
    destruct (Z.gcd x y =? 0); eexists; (split; [reflexivity|]);
      kept_instance.
  - rewrite (run_ior_any h a b x y Hla Hlb).
    destruct (Z.gcd x y =? 0); eexists; (split; [reflexivity|]);
      kept_instance.
  - rewrite (run_add h a b x y Hla Hlb). eexists. split; [reflexivity|].
    kept_instance.
  - rewrite (run_iadd h a b x y Hla Hlb). eexists. split; [reflexivity|].
    kept_instance.
  - rewrite (run_sub_any h a b x y Hla Hlb).
    destruct (Z.gcd x y =? 0); eexists; (split; [reflexivity|]);
      kept_instance.
  - rewrite (run_isub_any h a b x y Hla Hlb).
    destruct (Z.gcd x y =? 0); eexists; (split; [reflexivity|]);
      kept_instance.
  - rewrite (run_add_element h a x Hla e). eexists. split; [reflexivity|].
    kept_instance.
  - rewrite (run_remove_any h a x Hla e).
    destruct (e =? 0); [|destruct (x mod e =? 0)];
      eexists; (split; [reflexivity|]); kept_instance.
  - rewrite (run_discard_any h a x Hla e).
    destruct (e =? 0); [|destruct (x mod e =? 0)];
      eexists; (split; [reflexivity|]); kept_instance.
  - rewrite (run_clear h a x Hla). eexists. split; [reflexivity|].
    kept_instance.
Qed.

(** ** Division by zero *)

(** X2: [|], [|=], [-] and [-=] raise [ZeroDivisionError] exactly when both
    operands hold the value 0, the only case where the gcd is 0.  [|] and
    [|=] then leave the store as it was; [-] and [-=] have by then built the
    intersection, and [self] is not overwritten. *)
Theorem zero_operands_raise (h : heap) (a b : ref) (x y : Z) :
  h !! a = Some x -> h !! b = Some y ->
  PrimeMultiset.__or__ a b h
  = (if (x =? 0) && (y =? 0) then Raises ZeroDivisionError h
     else Returns (length h) (h ++ [x * y / Z.gcd x y]))
  /\ PrimeMultiset.__ior__ a b h
     = (if (x =? 0) && (y =? 0) then Raises ZeroDivisionError h
        else Returns a (<[a := x * y / Z.gcd x y]> h))
  /\ PrimeMultiset.__sub__ a b h
     = (if (x =? 0) && (y =? 0) then Raises ZeroDivisionError (h ++ [0])
        else Returns (S (length h)) (h ++ [Z.gcd x y; x / Z.gcd x y]))
  /\ PrimeMultiset.__isub__ a b h
     = (if (x =? 0) && (y =? 0) then Raises ZeroDivisionError (h ++ [0])
        else Returns a (<[a := x / Z.gcd x y]> (h ++ [Z.gcd x y]))).
Proof.
  intros Hla Hlb.
  rewrite (run_or_any h a b x y Hla Hlb), (run_ior_any h a b x y Hla Hlb),
    (run_sub_any h a b x y Hla Hlb), (run_isub_any h a b x y Hla Hlb).
  rewrite gcd_eqb_0.
  destruct (Z.eqb_spec x 0) as [->|Hx]; [|repeat split; reflexivity].
  destruct (Z.eqb_spec y 0) as [->|Hy]; repeat split; reflexivity.
Qed.

(** X3: a comparison raises [ZeroDivisionError] exactly when the instance
    it divides by holds 0: [self] for [<=] and [<], [other] for [>=] and
    [>]; [e in m] raises exactly for [e = 0].  Otherwise they answer with
    the divisibility test, and in all cases the store is unchanged. *)
Theorem comparisons_divide (h : heap) (a b : ref) (x y e : Z) :
  h !! a = Some x -> h !! b = Some y ->
  PrimeMultiset.__le__ a b h
  = (if x =? 0 then Raises ZeroDivisionError h
     else Returns (y mod x =? 0) h)
  /\ PrimeMultiset.__lt__ a b h
     = (if x =? 0 then Raises ZeroDivisionError h
        else Returns ((y mod x =? 0) && negb (x =? y)) h)
  /\ PrimeMultiset.__ge__ a b h
     = (if y =? 0 then Raises ZeroDivisionError h
        else Returns (x mod y =? 0) h)
  /\ PrimeMultiset.__gt__ a b h
     = (if y =? 0 then Raises ZeroDivisionError h
        else Returns ((x mod y =? 0) && negb (x =? y)) h)
  /\ PrimeMultiset.__contains__ a e h
     = (if e =? 0 then Raises ZeroDivisionError h
        else Returns (x mod e =? 0) h).
Proof.
  intros Hla Hlb.
  split; [apply run_le_any; assumption|].
  split; [apply run_lt_any; assumption|].
  split; [apply run_ge_any; assumption|].
  split; [apply run_gt_any; assumption|].
  apply run_contains_any; assumption.
Qed.

(** X4: for any integers, when [remove] raises, the store is exactly the
    one it started from; the exception is [ZeroDivisionError] for the
    element 0 and [KeyError(e)] otherwise; and when it returns, [e] is not 0,
    divides the value, and the value has become the quotient. *)
Theorem remove_raises_unchanged (h : heap) (m : ref) (x e : Z) :
  h !! m = Some x ->
  (forall (err : exn) (h' : heap),
     PrimeMultiset.remove m e h = Raises err h' ->
     h' = h /\ (e = 0 -> err = ZeroDivisionError)
     /\ (e <> 0 -> err = KeyError e /\ x mod e <> 0))
  /\ (forall h' : heap,
        PrimeMultiset.remove m e h = Returns tt h' ->
        e <> 0 /\ x mod e = 0 /\ h' = <[m := x / e]> h)
  /\ PrimeMultiset.remove m e h <> NoSuchObject.
Proof.
  intros Hm. rewrite (run_remove_any h m x Hm e).
  destruct (Z.eqb_spec e 0) as [He|He];
    [|destruct (Z.eqb_spec (x mod e) 0) as [Hr|Hr]];
    (split; [intros err h' E | split; [intros h' E | discriminate]]);
    try discriminate; inversion E; subst; repeat split;
    try reflexivity; try assumption; try contradiction; intros; assumption.
Qed.

(** ** Elements: adding, removing, membership *)

Lemma run_add_then_remove (h : heap) (m : ref) (x e : Z) :
  h !! m = Some x -> e <> 0 -> add_then_remove m e h = Returns tt h.
Proof.
  intros Hm He. unfold add_then_remove, bind.
  rewrite (run_add_element h m x Hm e).
  rewrite (run_remove_any _ m (x * e) (lookup_updated h m x _ Hm) e).
  destruct (Z.eqb_spec e 0); [contradiction|].
  rewrite Z.mod_mul, Z.div_mul by assumption. cbn [Z.eqb].
  rewrite update_update, (update_same h m x Hm). reflexivity.
Qed.

(** X5: for any value and any element [e] other than 0, [m.add(e)]
    followed by [m.remove(e)] returns and leaves the store exactly as it
    was; and when [e] divides the value, [m.remove(e)] followed by
    [m.add(e)] does too. *)
Theorem add_remove_round_trip (h : heap) (m : ref) (x e : Z) :
  h !! m = Some x -> e <> 0 ->
  add_then_remove m e h = Returns tt h
  /\ (x mod e = 0 -> remove_then_add m e h = Returns tt h).
Proof.
  intros Hm He. split; [apply (run_add_then_remove h m x e); assumption|].
  intros Hr. unfold remove_then_add, bind.
  rewrite (run_remove_any h m x Hm e).
  destruct (Z.eqb_spec e 0); [contradiction|].
  rewrite Hr. cbn [Z.eqb].
  rewrite (run_add_element _ m (x / e) (lookup_updated h m x _ Hm) e).
  rewrite update_update.
  replace (x / e * e) with x.
  - rewrite (update_same h m x Hm). reflexivity.
  - pose proof (Z.div_mod x e ltac:(assumption)). lia.
Qed.

(** X6: for an element other than 0, [e in m] tells what [m.remove(e)]
    will do: it answers true exactly when [remove] returns, and false
    exactly when [remove] raises [KeyError(e)]. *)
Theorem contains_predicts_remove (h : heap) (m : ref) (x e : Z) :
  h !! m = Some x -> e <> 0 ->
  (PrimeMultiset.__contains__ m e h = Returns true h
   <-> PrimeMultiset.remove m e h = Returns tt (<[m := x / e]> h))
  /\ (PrimeMultiset.__contains__ m e h = Returns false h
      <-> PrimeMultiset.remove m e h = Raises (KeyError e) h).
Proof.
  intros Hm He.
  rewrite (run_contains_any h m x Hm e), (run_remove_any h m x Hm e).
  destruct (Z.eqb_spec e 0); [contradiction|].
  destruct (x mod e =? 0); split; split;
    first [reflexivity | discriminate].
Qed.

(** X7: on every store, instance and integer element, [discard] does what
    [remove] does when [remove] returns, returns with the store unchanged
    when [remove] raises [KeyError], and raises [ZeroDivisionError] when
    [remove] does. *)
Theorem discard_follows_remove (h : heap) (m : ref) (e : Z) :
  PrimeMultiset.discard m e h
  = match PrimeMultiset.remove m e h with
    | Returns _ h' => Returns tt h'
    | Raises (KeyError _) _ => Returns tt h
    | Raises ZeroDivisionError h' => Raises ZeroDivisionError h'
    | NoSuchObject => NoSuchObject
    end.
Proof.
  destruct (h !! m) as [x|] eqn:Hm.
  - rewrite (run_discard_any h m x Hm e), (run_remove_any h m x Hm e).
    destruct (e =? 0); [reflexivity|].
    destruct (x mod e =? 0); reflexivity.
  - py_unfold. rewrite Hm. reflexivity.
Qed.

(** X8: 1 is an element of every multiset, the empty one included:
    [1 in m] is true, and [m.remove(1)] and [m.discard(1)] return without
    changing anything, whatever the value. *)
Theorem one_is_always_an_element (h : heap) (m : ref) (x : Z) :
  h !! m = Some x ->
  PrimeMultiset.__contains__ m 1 h = Returns true h
  /\ PrimeMultiset.remove m 1 h = Returns tt h
  /\ PrimeMultiset.discard m 1 h = Returns tt h.
Proof.
  intros Hm.
  rewrite (run_contains_any h m x Hm 1), (run_remove_any h m x Hm 1),
    (run_discard_any h m x Hm 1).
  cbn [Z.eqb]. rewrite Z.mod_1_r, Z.div_1_r. cbn [Z.eqb].
  rewrite (update_same h m x Hm). repeat split; reflexivity.
Qed.

(** ** Laws of the operators *)

(** X9: [&], [|], [+], [==] and [!=] are commutative on every store and
    for every pair of references: swapping the operands gives the same
    outcome, be it the same new instance, the same answer or the same
    exception. *)
Theorem operators_commute (h : heap) (a b : ref) :
  PrimeMultiset.__and__ a b h = PrimeMultiset.__and__ b a h
  /\ PrimeMultiset.__or__ a b h = PrimeMultiset.__or__ b a h
  /\ PrimeMultiset.__add__ a b h = PrimeMultiset.__add__ b a h
  /\ PrimeMultiset.__eq__ a b h = PrimeMultiset.__eq__ b a h
  /\ PrimeMultiset.__ne__ a b h = PrimeMultiset.__ne__ b a h.
Proof.
  destruct (h !! a) as [x|] eqn:Hla; destruct (h !! b) as [y|] eqn:Hlb;
    try (repeat split; py_unfold; rewrite ?Hla, ?Hlb; cbv beta iota;
         rewrite ?Hla, ?Hlb; reflexivity).
  rewrite (run_and h a b x y Hla Hlb), (run_and h b a y x Hlb Hla).
  rewrite (run_or_any h a b x y Hla Hlb), (run_or_any h b a y x Hlb Hla).
  rewrite (run_add h a b x y Hla Hlb), (run_add h b a y x Hlb Hla).
  rewrite (run_eq h a b x y Hla Hlb), (run_eq h b a y x Hlb Hla).
  rewrite (run_ne h a b x y Hla Hlb), (run_ne h b a y x Hlb Hla).
  rewrite (Z.gcd_comm y x), (Z.mul_comm y x), (Z.eqb_sym y x).
  repeat split; reflexivity.
Qed.

(** X10: [a <= b] is [b >= a] and [a < b] is [b > a], on every store and
    for every pair of references, exceptions included. *)
Theorem comparisons_mirror (h : heap) (a b : ref) :
  PrimeMultiset.__le__ a b h = PrimeMultiset.__ge__ b a h
  /\ PrimeMultiset.__lt__ a b h = PrimeMultiset.__gt__ b a h.
Proof.
  assert (Hle : PrimeMultiset.__le__ a b h = PrimeMultiset.__ge__ b a h)
    by reflexivity.
  split; [exact Hle|].
  unfold PrimeMultiset.__lt__, PrimeMultiset.__gt__, bind. rewrite <- Hle.
  destruct (PrimeMultiset.__le__ a b h) as [[|] h'|err h'|] eqn:E;
    try reflexivity.
  assert (h' = h) as ->.
  { revert E. py_unfold. destruct (h !! b); [|discriminate].
    destruct (h !! a) as [x|]; [|discriminate].
    destruct (x =? 0); [discriminate|]. intros E. inversion E. reflexivity. }
  destruct (h !! a) as [x|] eqn:Hla; destruct (h !! b) as [y|] eqn:Hlb;
    try (py_unfold; rewrite ?Hla, ?Hlb; cbv beta iota; rewrite ?Hla, ?Hlb;
         reflexivity).
  rewrite (run_ne h a b x y Hla Hlb), (run_ne h b a y x Hlb Hla).
  rewrite (Z.eqb_sym y x). reflexivity.
Qed.

(** Lookups in a store that has grown by one instance at a time. *)
Ltac lookup_tac :=
  repeat first
    [ exact (lookup_new _ _)
    | eassumption
    | apply lookup_old ].

Lemma run_sub_snoc (h : heap) (a b : ref) (x y : Z) :
  h !! a = Some x -> h !! b = Some y -> Z.gcd x y <> 0 ->
  PrimeMultiset.__sub__ a b h
  = Returns (length (h ++ [Z.gcd x y]))
      ((h ++ [Z.gcd x y]) ++ [x / Z.gcd x y]).
Proof.
  intros Hla Hlb Hg. rewrite (run_sub h a b x y Hla Hlb Hg).
  rewrite length_snoc, snoc_snoc. reflexivity.
Qed.

Lemma product_app (a b : list Z) : product (a ++ b) = product a * product b.
Proof.
  unfold product. induction a as [|e a IH]; cbn.
  - destruct (foldr Z.mul 1 b); reflexivity.
  - rewrite IH. ring.
Qed.

Lemma product_permutation (a b : list Z) :
  Permutation a b -> product a = product b.
Proof.
  unfold product. induction 1; cbn; try congruence; ring.
Qed.

Lemma lcm_formula_gcd (x y : Z) :
  1 <= x -> lcm_formula x y * Z.gcd x y = x * y.
Proof.
  intros Hx. rewrite lcm_formula_mul by assumption.
  pose proof (div_gcd_mul x y Hx) as E.
  transitivity (Z.gcd x y * (x / Z.gcd x y) * y); [ring|].
  rewrite <- E. reflexivity.
Qed.

Lemma div_gcd_eqb_1 (x y : Z) :
  1 <= x -> (x / Z.gcd x y =? 1) = (y mod x =? 0).
Proof.
  intros Hx. pose proof (gcd_pos_l x y Hx) as Hg.
  pose proof (div_gcd_mul x y Hx) as E.
  destruct (Z.eqb_spec (y mod x) 0) as [Hr|Hr].
  - apply Z.eqb_eq. apply Z.mod_divide in Hr; [|lia].
    apply Z.divide_gcd_iff in Hr; [|lia].
    rewrite Hr. apply Z.div_same. lia.
  - apply Z.eqb_neq. intros Hq. apply Hr.
    rewrite Hq, Z.mul_1_r in E.
    apply Z.mod_divide; [lia|].
    rewrite E at 1. apply Z.gcd_divide_r.
Qed.

Lemma gcd_eqb_l (x y : Z) : 1 <= x -> (Z.gcd x y =? x) = (y mod x =? 0).
Proof.
  intros Hx. destruct (Z.eqb_spec (y mod x) 0) as [Hr|Hr].
  - apply Z.eqb_eq. apply Z.divide_gcd_iff; [lia|].
    apply Z.mod_divide; [lia | exact Hr].
  - apply Z.eqb_neq. intros Hq. apply Hr.
    apply Z.mod_divide; [lia|]. apply Z.divide_gcd_iff; [lia | exact Hq].
Qed.

Lemma lcm_formula_eqb_r (x y : Z) :
  1 <= x -> 1 <= y -> (lcm_formula x y =? y) = (y mod x =? 0).
Proof.
  intros Hx Hy. rewrite lcm_formula_lcm by assumption.
  destruct (Z.eqb_spec (y mod x) 0) as [Hr|Hr].
  - apply Z.eqb_eq. apply Z.divide_lcm_iff; [lia|].
    apply Z.mod_divide; [lia | exact Hr].
  - apply Z.eqb_neq. intros Hq. apply Hr.
    apply Z.mod_divide; [lia|]. apply Z.divide_lcm_iff; [lia | exact Hq].
Qed.

Section Laws.

Variables (h : heap) (a b c : ref) (x y z : Z).
Hypothesis Ha : positive_at h a x.
Hypothesis Hb : positive_at h b y.
Hypothesis Hc : positive_at h c z.

(** X11: for values of at least 1, [&], [|] and [+] are associative:
    [(a & b) & c] and [a & (b & c)] both hold [gcd (gcd x y) z], the two
    nestings of [|] both hold the least common multiple of the three values,
    and the two nestings of [+] both hold [x * y * z]. *)
Theorem operators_associate :
  value_of (nest_left PrimeMultiset.__and__ a b c h)
  = Some (Z.gcd (Z.gcd x y) z)
  /\ value_of (nest_right PrimeMultiset.__and__ a b c h)
     = Some (Z.gcd (Z.gcd x y) z)
  /\ value_of (nest_left PrimeMultiset.__or__ a b c h)
     = Some (Z.lcm (Z.lcm x y) z)
  /\ value_of (nest_right PrimeMultiset.__or__ a b c h)
     = Some (Z.lcm (Z.lcm x y) z)
  /\ value_of (nest_left PrimeMultiset.__add__ a b c h) = Some (x * y * z)
  /\ value_of (nest_right PrimeMultiset.__add__ a b c h) = Some (x * y * z).
Proof.
  destruct Ha as [Hla Hx], Hb as [Hlb Hy], Hc as [Hlc Hz].
  pose proof (lcm_formula_pos x y Hx Hy) as Hxy.
  pose proof (lcm_formula_pos y z Hy Hz) as Hyz.
  unfold nest_left, nest_right, bind.
  repeat split.
  - rewrite (run_and h a b x y Hla Hlb).
    erewrite run_and; [|lookup_tac|lookup_tac]. apply lookup_new.
  - rewrite (run_and h b c y z Hlb Hlc).
    erewrite run_and; [|lookup_tac|lookup_tac].
    cbn [value_of]. rewrite lookup_new, Z.gcd_assoc. reflexivity.
  - rewrite (run_or h a b x y Hla Hlb)
      by (pose proof (gcd_pos_l x y Hx); lia).
    erewrite run_or; [|lookup_tac|lookup_tac|].
    + cbn [value_of]. rewrite lookup_new.
      rewrite (lcm_formula_lcm _ z Hxy Hz), (lcm_formula_lcm x y Hx Hy).
      reflexivity.
    + pose proof (gcd_pos_l _ z Hxy). lia.
  - rewrite (run_or h b c y z Hlb Hlc)
      by (pose proof (gcd_pos_l y z Hy); lia).
    erewrite run_or; [|lookup_tac|lookup_tac|].
    + cbn [value_of]. rewrite lookup_new.
      rewrite (lcm_formula_lcm x _ Hx Hyz), (lcm_formula_lcm y z Hy Hz).
      rewrite Z.lcm_assoc. reflexivity.
    + pose proof (gcd_pos_l x (lcm_formula y z) Hx). lia.
  - rewrite (run_add h a b x y Hla Hlb).
    erewrite run_add; [|lookup_tac|lookup_tac]. apply lookup_new.
  - rewrite (run_add h b c y z Hlb Hlc).
    erewrite run_add; [|lookup_tac|lookup_tac].
    cbn [value_of]. rewrite lookup_new, Z.mul_assoc. reflexivity.
Qed.

(** X12: for a value of at least 1, [a & a] and [a | a] hold the value of
    [a], and [a - a] is the empty multiset. *)
Theorem operators_on_self :
  value_of (PrimeMultiset.__and__ a a h) = Some x
  /\ value_of (PrimeMultiset.__or__ a a h) = Some x
  /\ difference_is_empty a a h = Returns true (h ++ [x; 1]).
Proof.
  destruct Ha as [Hla Hx].
  assert (Hg : Z.gcd x x = x) by (rewrite Z.gcd_diag; lia).
  split; [|split].
  - rewrite (run_and h a a x x Hla Hla). cbn [value_of].
    rewrite lookup_new, Hg. reflexivity.
  - rewrite (run_or h a a x x Hla Hla) by lia. cbn [value_of].
    rewrite lookup_new. unfold lcm_formula. rewrite Hg, Z.div_mul by lia.
    reflexivity.
  - unfold difference_is_empty, bind.
    rewrite (run_sub_snoc h a a x x Hla Hla) by lia.
    erewrite run_is_empty; [|lookup_tac].
    rewrite Hg, Z.div_same by lia. rewrite snoc_snoc. reflexivity.
Qed.

(** X13: for values of at least 1, [(a - b).is_empty()] gives the answer of
    [a <= b]: the difference is empty exactly when [a] is included in
    [b]. *)
Theorem difference_empty_iff_included :
  result (difference_is_empty a b h) = Some (y mod x =? 0)
  /\ result (PrimeMultiset.__le__ a b h) = Some (y mod x =? 0).
Proof.
  destruct Ha as [Hla Hx], Hb as [Hlb Hy].
  pose proof (gcd_pos_l x y Hx) as Hg. split.
  - unfold difference_is_empty, bind.
    rewrite (run_sub_snoc h a b x y Hla Hlb) by lia.
    erewrite run_is_empty; [|lookup_tac].
    cbn [result]. rewrite div_gcd_eqb_1 by assumption. reflexivity.
  - rewrite (run_le h a b x y Hla Hlb) by lia. reflexivity.
Qed.

(** X14: on values of at least 1, [<=] is a partial order and [<] its
    strict part: [a <= a]; [a <= b] and [b <= c] give [a <= c]; [a <= b]
    and [b <= a] give [a == b]; [a < a] is false; and [a < b] makes
    [b < a] false. *)
Theorem inclusion_is_partial_order :
  PrimeMultiset.__le__ a a h = Returns true h
  /\ (PrimeMultiset.__le__ a b h = Returns true h ->
      PrimeMultiset.__le__ b c h = Returns true h ->
      PrimeMultiset.__le__ a c h = Returns true h)
  /\ (PrimeMultiset.__le__ a b h = Returns true h ->
      PrimeMultiset.__le__ b a h = Returns true h ->
      PrimeMultiset.__eq__ a b h = Returns true h)
  /\ PrimeMultiset.__lt__ a a h = Returns false h
  /\ (PrimeMultiset.__lt__ a b h = Returns true h ->
      PrimeMultiset.__lt__ b a h = Returns false h).
Proof.
  destruct Ha as [Hla Hx], Hb as [Hlb Hy], Hc as [Hlc Hz].
  rewrite (run_le h a a x x Hla Hla), (run_le h a b x y Hla Hlb),
    (run_le h b c y z Hlb Hlc), (run_le h a c x z Hla Hlc),
    (run_le h b a y x Hlb Hla), (run_eq h a b x y Hla Hlb),
    (run_lt h a a x x Hla Hla), (run_lt h a b x y Hla Hlb),
    (run_lt h b a y x Hlb Hla) by lia.
  rewrite Z.mod_same, !Z.eqb_refl by lia. cbn [Z.eqb negb andb].
  assert (Hdiv : forall u v, 1 <= u -> (v mod u =? 0) = true -> (u | v)).
  { intros u v Hu E. apply Z.eqb_eq in E. apply Z.mod_divide; [lia | exact E]. }
  split; [reflexivity|]. split; [|split; [|split; [reflexivity|]]].
  - intros E1 E2. injection E1 as E1'. injection E2 as E2'.
    f_equal. apply Z.eqb_eq. apply Z.mod_divide; [lia|].
    eapply Z.divide_trans; eapply Hdiv; eauto.
  - intros E1 E2. injection E1 as E1'. injection E2 as E2'.
    f_equal. apply Z.eqb_eq.
    apply Z.divide_antisym_nonneg; try lia; eapply Hdiv; eauto.
  - intros E. injection E as E'.
    apply andb_true_iff in E' as [E1 E2].
    f_equal. apply andb_false_iff.
    destruct (Z.eqb_spec (x mod y) 0) as [Hr|Hr]; [|left; reflexivity].
    right. apply negb_false_iff, Z.eqb_eq.
    apply Z.divide_antisym_nonneg; try lia.
    + apply Z.mod_divide; [lia | exact Hr].
    + apply Hdiv; assumption.
Qed.

(** X15: for values of at least 1, the two decompositions hold:
    [(a | b) + (a & b) == a + b] and [(a - b) + (a & b) == a] are true. *)
Theorem union_difference_decompose :
  result (union_plus_intersection a b h) = Some true
  /\ result (difference_plus_intersection a b h) = Some true.
Proof.
  destruct Ha as [Hla Hx], Hb as [Hlb Hy].
  pose proof (gcd_pos_l x y Hx) as Hg.
  unfold union_plus_intersection, difference_plus_intersection, bind. split.
  - rewrite (run_or h a b x y Hla Hlb) by lia.
    erewrite run_and; [|lookup_tac|lookup_tac].
    erewrite run_add; [|lookup_tac|lookup_tac].
    erewrite run_add; [|lookup_tac|lookup_tac].
    erewrite run_eq; [|lookup_tac|lookup_tac].
    cbn [result]. rewrite lcm_formula_gcd, Z.eqb_refl by assumption.
    reflexivity.
  - rewrite (run_sub_snoc h a b x y Hla Hlb) by lia.
    erewrite run_and; [|lookup_tac|lookup_tac].
    erewrite run_add; [|lookup_tac|lookup_tac].
    erewrite run_eq; [|lookup_tac|lookup_tac].
    cbn [result]. f_equal. apply Z.eqb_eq.
    pose proof (div_gcd_mul x y Hx). lia.
Qed.

(** X16: for values of at least 1, [a <= b], [(a & b) == a] and
    [(a | b) == b] give the same answer. *)
Theorem inclusion_by_intersection_or_union :
  result (PrimeMultiset.__le__ a b h) = Some (y mod x =? 0)
  /\ result (equals_after PrimeMultiset.__and__ a b a h)
     = Some (y mod x =? 0)
  /\ result (equals_after PrimeMultiset.__or__ a b b h)
     = Some (y mod x =? 0).
Proof.
  destruct Ha as [Hla Hx], Hb as [Hlb Hy].
  pose proof (gcd_pos_l x y Hx) as Hg.
  unfold equals_after, bind. split; [|split].
  - rewrite (run_le h a b x y Hla Hlb) by lia. reflexivity.
  - rewrite (run_and h a b x y Hla Hlb).
    erewrite run_eq; [|lookup_tac|lookup_tac].
    cbn [result]. rewrite gcd_eqb_l by assumption. reflexivity.
  - rewrite (run_or h a b x y Hla Hlb) by lia.
    erewrite run_eq; [|lookup_tac|lookup_tac].
    cbn [result]. rewrite lcm_formula_eqb_r by assumption. reflexivity.
Qed.

End Laws.

(** X17: an instance of value 1, the empty multiset, is neutral for [+],
    [|] and [-], absorbing for [&], and included in every multiset,
    whatever integer the other operand holds. *)
Theorem empty_multiset_laws (h : heap) (a e : ref) (x : Z) :
  h !! a = Some x -> h !! e = Some 1 ->
  value_of (PrimeMultiset.__add__ a e h) = Some x
  /\ value_of (PrimeMultiset.__or__ a e h) = Some x
  /\ value_of (PrimeMultiset.__sub__ a e h) = Some x
  /\ value_of (PrimeMultiset.__and__ a e h) = Some 1
  /\ PrimeMultiset.__le__ e a h = Returns true h.
Proof.
  intros Hla Hle.
  assert (Hg : Z.gcd x 1 = 1) by apply Z.gcd_1_r.
  rewrite (run_add h a e x 1 Hla Hle), (run_and h a e x 1 Hla Hle).
  rewrite (run_or h a e x 1 Hla Hle), (run_sub_snoc h a e x 1 Hla Hle),
    (run_le h e a 1 x Hle Hla) by lia.
  cbn [value_of]. rewrite !lookup_new. unfold lcm_formula.
  rewrite Hg, Z.mul_1_r, Z.div_1_r, Z.mod_1_r. repeat split; reflexivity.
Qed.

(** ** Construction *)

(** X18: for any two lists of integers, [P(a) + P(b) == P(a ++ b)] is
    true: the sum of two multisets is the multiset of the concatenated
    lists. *)
Theorem sum_is_concatenation (h : heap) (a b : list Z) :
  result (sum_of_lists a b h) = Some true.
Proof.
  unfold sum_of_lists, bind. rewrite !run_init.
  erewrite run_add; [|lookup_tac|lookup_tac].
  rewrite run_init.
  erewrite run_eq; [|lookup_tac|lookup_tac].
  cbn [result]. f_equal. apply Z.eqb_eq.
  rewrite !reduce_mul_product, product_app.
  unfold PrimeMultiset.default_initial_value. ring.
Qed.

(** X19: construction does not depend on the order of the sequence: two
    lists that are permutations of one another give the same value, for any
    initial value. *)
Theorem construction_ignores_order (h : heap) (a b : list Z) (i : Z) :
  Permutation a b ->
  PrimeMultiset.__init__ a i h = PrimeMultiset.__init__ b i h.
Proof.
  intros Hp. rewrite !run_init, !reduce_mul_product.
  rewrite (product_permutation a b Hp). reflexivity.
Qed.

(** X20: construction establishes the invariant: from a sequence of
    integers of at least 1 and an initial value of at least 1, the new
    instance has a value of at least 1, and a store that satisfied the
    invariant still does. *)
Theorem construction_keeps_invariant (h : heap) (sequence : list Z) (i : Z) :
  heap_ok h -> Forall (fun e => 1 <= e) sequence -> 1 <= i ->
  exists h' : heap,
    PrimeMultiset.__init__ sequence i h = Returns (length h) h'
    /\ heap_ok h'
    /\ exists v : Z, h' !! length h = Some v /\ 1 <= v.
Proof.
  intros Hok Hseq Hi. rewrite run_init, reduce_mul_product.
  pose proof (product_pos sequence Hseq) as Hp.
  assert (Hv : 1 <= i * product sequence) by nia.
  eexists. split; [reflexivity|]. split.
  - apply heap_ok_snoc; assumption.
  - eexists. split; [apply lookup_new | exact Hv].
Qed.

(** ** The multiset an integer encodes *)

Lemma multiplicity_pos_iff (p n : Z) :
  2 <= p -> 1 <= n -> (p | n) <-> (1 <= multiplicity p n)%nat.
Proof.
  intros Hp Hn. rewrite <- (multiplicity_divide p Hp n 1 Hn).
  change (Z.of_nat 1) with 1. rewrite Z.pow_1_r. reflexivity.
Qed.

Lemma multiplicity_prime_self (p : Z) : Z.prime p -> multiplicity p p = 1%nat.
Proof.
  intros Hp. pose proof (Z.prime_ge_2 p Hp) as Hp2.
  apply (multiplicity_unique p Hp2 p 1); [lia | |].
  - change (Z.of_nat 1) with 1. rewrite Z.pow_1_r. ring.
  - intros Hd. apply Z.divide_1_r in Hd. lia.
Qed.

Lemma multiplicity_prime_other (p q : Z) :
  Z.prime p -> Z.prime q -> p <> q -> multiplicity p q = 0%nat.
Proof.
  intros Hp Hq Hne. pose proof (Z.prime_ge_2 p Hp) as Hp2.
  pose proof (Z.prime_ge_2 q Hq) as Hq2.
  apply (multiplicity_unique p Hp2 q q);
    [lia | change (Z.of_nat 0) with 0; rewrite Z.pow_0_r; ring |].
  intros Hd. apply Hne. apply Z.divide_prime_prime; assumption.
Qed.

Lemma multiplicity_one (p : Z) : 2 <= p -> multiplicity p 1 = 0%nat.
Proof.
  intros Hp. apply (multiplicity_unique p Hp 1 1);
    [lia | change (Z.of_nat 0) with 0; rewrite Z.pow_0_r; ring |].
  intros Hd. apply Z.divide_1_r in Hd. lia.
Qed.

Lemma multiplicity_lcm_formula (p x y : Z) :
  Z.prime p -> 1 <= x -> 1 <= y ->
  multiplicity p (lcm_formula x y)
  = Nat.max (multiplicity p x) (multiplicity p y).
Proof.
  intros Hp Hx Hy. pose proof (Z.prime_ge_2 p Hp) as Hp2.
  rewrite lcm_formula_mul by assumption.
  rewrite (multiplicity_mul p Hp2 _ y Hp (div_gcd_pos x y Hx) Hy).
  rewrite (multiplicity_div_gcd p Hp2 x y Hp Hx Hy). lia.
Qed.

Lemma small_divisor_search (n : Z) (k : nat) :
  (forall d : Z, 1 < d < Z.of_nat k -> ~ (d | n))
  \/ (exists d : Z, 1 < d < Z.of_nat k /\ (d | n)).
Proof.
  induction k as [|k [IH|(d & Hd & Hdn)]].
  - left. intros d Hd. lia.
  - destruct (Z_lt_dec 1 (Z.of_nat k)) as [Hk|Hk].
    + destruct (Z.eq_dec (n mod Z.of_nat k) 0) as [E|E].
      * right. exists (Z.of_nat k). split; [lia|].
        apply Z.mod_divide; [lia | exact E].
      * left. intros d Hd Hdn.
        destruct (Z.eq_dec d (Z.of_nat k)) as [->|Hne].
        -- apply E. apply Z.mod_divide; [lia | exact Hdn].
        -- apply (IH d); [lia | exact Hdn].
    + left. intros d Hd. lia.
  - right. exists d. split; [lia | exact Hdn].
Qed.

(** Every integer from 2 on has a prime divisor. *)
Lemma prime_divisor_upto (k : nat) :
  forall n : Z, 2 <= n -> n <= Z.of_nat k ->
    exists p : Z, Z.prime p /\ (p | n).
Proof.
  induction k as [|k IH]; intros n Hn Hk; [lia|].
  destruct (small_divisor_search n (Z.to_nat n)) as [Hnone|(d & Hd & Hdn)].
  - exists n. split; [|apply Z.divide_refl].
    split; [lia|]. intros d Hd. apply Hnone. lia.
  - destruct (IH d) as (p & Hp & Hpd); [lia | lia |].
    exists p. split; [exact Hp|]. eapply Z.divide_trans; eassumption.
Qed.

Lemma prime_divisor (n : Z) :
  2 <= n -> exists p : Z, Z.prime p /\ (p | n).
Proof. intros Hn. apply (prime_divisor_upto (Z.to_nat n)); lia. Qed.

(** Inclusion can be read off the multiplicities. *)
Lemma divide_of_multiplicities_upto (k : nat) :
  forall x y : Z, 1 <= x -> x <= Z.of_nat k -> 1 <= y ->
    (forall p : Z, Z.prime p ->
       (multiplicity p x <= multiplicity p y)%nat) ->
    (x | y).
Proof.
  induction k as [|k IH]; intros x y Hx Hk Hy Hle; [lia|].
  destruct (Z.eq_dec x 1) as [->|Hx1]; [apply Z.divide_1_l|].
  destruct (prime_divisor x ltac:(lia)) as (p & Hp & [c Hc]).
  pose proof (Z.prime_ge_2 p Hp) as Hp2.
  assert (Hc1 : 1 <= c) by nia.
  assert (Hpy : (p | y)).
  { apply (multiplicity_pos_iff p y Hp2 Hy).
    eapply Nat.le_trans; [|apply (Hle p Hp)].
    apply (multiplicity_pos_iff p x Hp2 Hx). exists c. exact Hc. }
  destruct Hpy as [c' Hc'].
  assert (Hc'1 : 1 <= c') by nia.
  subst x y. apply Z.mul_divide_mono_r. apply IH; [lia | nia | lia |].
  intros q Hq. pose proof (Z.prime_ge_2 q Hq) as Hq2.
  specialize (Hle q Hq).
  rewrite (multiplicity_mul q Hq2 c p Hq Hc1 ltac:(lia)) in Hle.
  rewrite (multiplicity_mul q Hq2 c' p Hq Hc'1 ltac:(lia)) in Hle.
  lia.
Qed.

Lemma divide_iff_multiplicities (x y : Z) :
  1 <= x -> 1 <= y ->
  (x | y)
  <-> forall p : Z, Z.prime p -> (multiplicity p x <= multiplicity p y)%nat.
Proof.
  intros Hx Hy. split.
  - intros Hd p Hp. pose proof (Z.prime_ge_2 p Hp) as Hp2.
    apply (multiplicity_divide p Hp2 y _ Hy).
    eapply Z.divide_trans; [|exact Hd].
    apply (multiplicity_divide p Hp2 x _ Hx). lia.
  - apply (divide_of_multiplicities_upto (Z.to_nat x)); lia.
Qed.

Lemma multiplicity_product (p : Z) (primes : list Z) :
  Z.prime p -> Forall Z.prime primes ->
  1 <= product primes
  /\ multiplicity p (product primes) = count_occ Z.eq_dec primes p.
Proof.
  intros Hp Hall. pose proof (Z.prime_ge_2 p Hp) as Hp2.
  induction Hall as [|q primes Hq Hall [IH1 IH2]].
  - split; [cbn; lia | apply multiplicity_one; exact Hp2].
  - pose proof (Z.prime_ge_2 q Hq) as Hq2.
    change (product (q :: primes)) with (q * product primes).
    split; [nia|].
    rewrite (multiplicity_mul p Hp2 q _ Hp ltac:(lia) IH1), IH2.
    cbn [count_occ]. destruct (Z.eq_dec q p) as [->|Hne].
    + rewrite (multiplicity_prime_self p Hp). reflexivity.
    + rewrite (multiplicity_prime_other p q Hp Hq) by congruence.
      reflexivity.
Qed.

(** X21: for values of at least 1 and every prime [p], the multiplicity
    of [p] in [a & b] is the minimum of its multiplicities in [a] and [b],
    in [a | b] the maximum, and in [a + b] the sum. *)
Theorem operators_on_multiplicities
    (h : heap) (a b : ref) (x y p : Z) :
  positive_at h a x -> positive_at h b y -> Z.prime p ->
  (exists v : Z,
     value_of (PrimeMultiset.__and__ a b h) = Some v
     /\ multiplicity p v = Nat.min (multiplicity p x) (multiplicity p y))
  /\ (exists v : Z,
        value_of (PrimeMultiset.__or__ a b h) = Some v
        /\ multiplicity p v = Nat.max (multiplicity p x) (multiplicity p y))
  /\ (exists v : Z,
        value_of (PrimeMultiset.__add__ a b h) = Some v
        /\ multiplicity p v = (multiplicity p x + multiplicity p y)%nat).
Proof.
  intros [Hla Hx] [Hlb Hy] Hp. pose proof (Z.prime_ge_2 p Hp) as Hp2.
  pose proof (gcd_pos_l x y Hx) as Hg.
  split; [|split].
  - exists (Z.gcd x y). rewrite (run_and h a b x y Hla Hlb).
    split; [apply lookup_new | apply multiplicity_gcd; assumption].
  - exists (lcm_formula x y). rewrite (run_or h a b x y Hla Hlb) by lia.
    split; [apply lookup_new | apply multiplicity_lcm_formula; assumption].
  - exists (x * y). rewrite (run_add h a b x y Hla Hlb).
    split; [apply lookup_new | apply multiplicity_mul; assumption].
Qed.

(** X22: on a value of at least 1, [m.add(p)] for a prime [p] raises the
    multiplicity of [p] by one and leaves the multiplicity of every other
    prime as it was. *)
Theorem add_prime_increments (h : heap) (m : ref) (x p : Z) :
  positive_at h m x -> Z.prime p ->
  exists v : Z,
    PrimeMultiset.add m p h = Returns tt (<[m := v]> h)
    /\ multiplicity p v = S (multiplicity p x)
    /\ forall q : Z, Z.prime q -> q <> p ->
         multiplicity q v = multiplicity q x.
Proof.
  intros [Hm Hx] Hp. pose proof (Z.prime_ge_2 p Hp) as Hp2.
  exists (x * p). split; [apply run_add_element; exact Hm|]. split.
  - rewrite (multiplicity_mul p Hp2 x p Hp Hx ltac:(lia)).
    rewrite (multiplicity_prime_self p Hp). lia.
  - intros q Hq Hne. pose proof (Z.prime_ge_2 q Hq) as Hq2.
    rewrite (multiplicity_mul q Hq2 x p Hq Hx ltac:(lia)).
    rewrite (multiplicity_prime_other q p Hq Hp Hne). lia.
Qed.

(** X23: on a value of at least 1, when the prime [p] divides the value,
    [m.remove(p)] returns, lowers the multiplicity of [p] by one and leaves
    the multiplicity of every other prime as it was. *)
Theorem remove_prime_decrements (h : heap) (m : ref) (x p : Z) :
  positive_at h m x -> Z.prime p -> x mod p = 0 ->
  exists v : Z,
    PrimeMultiset.remove m p h = Returns tt (<[m := v]> h)
    /\ S (multiplicity p v) = multiplicity p x
    /\ forall q : Z, Z.prime q -> q <> p ->
         multiplicity q v = multiplicity q x.
Proof.
  intros [Hm Hx] Hp Hr. pose proof (Z.prime_ge_2 p Hp) as Hp2.
  assert (Hq1 : 1 <= x / p) by (apply exact_div_pos; [lia | lia | exact Hr]).
  assert (E : x = x / p * p).
  { pose proof (Z.div_mod x p ltac:(lia)). lia. }
  exists (x / p). split.
  - rewrite (run_remove h m x Hm p) by lia. rewrite Hr. reflexivity.
  - split.
    + rewrite E at 2.
      rewrite (multiplicity_mul p Hp2 (x / p) p Hp Hq1 ltac:(lia)).
      rewrite (multiplicity_prime_self p Hp). lia.
    + intros q Hq Hne. pose proof (Z.prime_ge_2 q Hq) as Hq2.
      rewrite E at 2.
      rewrite (multiplicity_mul q Hq2 (x / p) p Hq Hq1 ltac:(lia)).
      rewrite (multiplicity_prime_other q p Hq Hp Hne). lia.
Qed.

(** X24: on a value of at least 1 and for an element [p] of at least 2,
    [p in m] answers whether the multiplicity of [p] is at least one. *)
Theorem contains_is_positive_multiplicity (h : heap) (m : ref) (x p : Z) :
  positive_at h m x -> 2 <= p ->
  PrimeMultiset.__contains__ m p h
  = Returns (0 <? multiplicity p x)%nat h.
Proof.
  intros [Hm Hx] Hp. rewrite (run_contains_any h m x Hm p).
  destruct (Z.eqb_spec p 0); [lia|]. f_equal.
  destruct (Z.eqb_spec (x mod p) 0) as [Hr|Hr]; symmetry.
  - apply Nat.ltb_lt. apply (multiplicity_pos_iff p x Hp Hx).
    apply Z.mod_divide; [lia | exact Hr].
  - apply Nat.ltb_ge.
    destruct (multiplicity p x) eqn:E; [lia|]. exfalso. apply Hr.
    apply Z.mod_divide; [lia|].
    apply (multiplicity_pos_iff p x Hp Hx). lia.
Qed.

(** X25: on values of at least 1, [a <= b] is true exactly when every
    prime has in [a] at most the multiplicity it has in [b]: [<=] is
    multiset inclusion. *)
Theorem le_is_multiset_inclusion (h : heap) (a b : ref) (x y : Z) :
  positive_at h a x -> positive_at h b y ->
  PrimeMultiset.__le__ a b h = Returns true h
  <-> forall p : Z, Z.prime p ->
        (multiplicity p x <= multiplicity p y)%nat.
Proof.
  intros [Hla Hx] [Hlb Hy].
  rewrite (run_le h a b x y Hla Hlb) by lia.
  rewrite <- (divide_iff_multiplicities x y Hx Hy).
  rewrite <- (Z.mod_divide y x) by lia. rewrite <- Z.eqb_eq.
  split; [intros E; injection E as E; exact E | intros ->; reflexivity].
Qed.

(** X26: on values of at least 1, [a == b] is true exactly when every
    prime has the same multiplicity in [a] and in [b]: two instances are
    equal exactly when they encode the same multiset. *)
Theorem eq_is_same_multiset (h : heap) (a b : ref) (x y : Z) :
  positive_at h a x -> positive_at h b y ->
  PrimeMultiset.__eq__ a b h = Returns true h
  <-> forall p : Z, Z.prime p -> multiplicity p x = multiplicity p y.
Proof.
  intros [Hla Hx] [Hlb Hy].
  rewrite (run_eq h a b x y Hla Hlb). split.
  - intros E. injection E as E. apply Z.eqb_eq in E. subst y. reflexivity.
  - intros Hall. f_equal. apply Z.eqb_eq.
    apply Z.divide_antisym_nonneg; try lia.
    + apply divide_iff_multiplicities; try assumption.
      intros p Hp. rewrite (Hall p Hp). lia.
    + apply divide_iff_multiplicities; try assumption.
      intros p Hp. rewrite (Hall p Hp). lia.
Qed.

(** X27: a multiset built from a list of primes holds each prime as many
    times as the list does: the multiplicity of a prime [p] in
    [PrimeMultiset(primes)] is the number of occurrences of [p] in
    [primes]. *)
Theorem construction_counts_occurrences
    (h : heap) (primes : list Z) (p : Z) :
  Forall Z.prime primes -> Z.prime p ->
  exists v : Z,
    PrimeMultiset.__init__ primes PrimeMultiset.default_initial_value h
    = Returns (length h) (h ++ [v])
    /\ multiplicity p v = count_occ Z.eq_dec primes p.
Proof.
  intros Hall Hp. exists (product primes). split.
  - rewrite run_init, reduce_mul_product.
    unfold PrimeMultiset.default_initial_value. rewrite Z.mul_1_l.
    reflexivity.
  - apply multiplicity_product; assumption.
Qed.

(** ** The further properties at concrete stores *)

Lemma positive_chain_2 : positive_at [2; 4; 8] 0%nat 2.
Proof. split; [reflexivity | lia]. Defined.

Lemma positive_chain_4 : positive_at [2; 4; 8] 1%nat 4.
Proof. split; [reflexivity | lia]. Defined.

Lemma positive_chain_8 : positive_at [2; 4; 8] 2%nat 8.
Proof. split; [reflexivity | lia]. Defined.

Lemma positive_alone_12 : positive_at [12] 0%nat 12.
Proof. split; [reflexivity | lia]. Defined.

Lemma primes_2_3_2 : Forall Z.prime [2; 3; 2].
Proof.
  constructor; [exact Z.prime_2|]. constructor; [exact Z.prime_3|].
  constructor; [exact Z.prime_2|]. constructor.
Defined.

(** [a -= b] on two instances of value 0: the call raises. *)
Lemma calls_keep_other_instances_witness :
  call_refs [0; 0] (CIsub 0%nat 1%nat)
  /\ exists h' : heap,
       final_heap (exec (CIsub 0%nat 1%nat) [0; 0]) = Some h'
       /\ forall (r : ref) (v : Z),
            [0; 0] !! r = Some v ->
            target (CIsub 0%nat 1%nat) <> Some r -> h' !! r = Some v.
Proof.
  assert (Hrefs : call_refs [0; 0] (CIsub 0%nat 1%nat)).
  { split; cbn; lia. }
  split; [exact Hrefs|].
  exact (calls_keep_other_instances [0; 0] (CIsub 0%nat 1%nat) Hrefs).
Defined.

Lemma zero_operands_raise_witness :
  [0; 0] !! 0%nat = Some 0 /\ [0; 0] !! 1%nat = Some 0
  /\ PrimeMultiset.__or__ 0%nat 1%nat [0; 0]
     = Raises ZeroDivisionError [0; 0]
  /\ PrimeMultiset.__ior__ 0%nat 1%nat [0; 0]
     = Raises ZeroDivisionError [0; 0]
  /\ PrimeMultiset.__sub__ 0%nat 1%nat [0; 0]
     = Raises ZeroDivisionError [0; 0; 0]
  /\ PrimeMultiset.__isub__ 0%nat 1%nat [0; 0]
     = Raises ZeroDivisionError [0; 0; 0].
Proof.
  split; [reflexivity|]. split; [reflexivity|].
  exact (zero_operands_raise [0; 0] 0%nat 1%nat 0 0 eq_refl eq_refl).
Defined.

Lemma comparisons_divide_witness :
  [0; 6] !! 0%nat = Some 0 /\ [0; 6] !! 1%nat = Some 6
  /\ PrimeMultiset.__le__ 0%nat 1%nat [0; 6]
     = Raises ZeroDivisionError [0; 6]
  /\ PrimeMultiset.__lt__ 0%nat 1%nat [0; 6]
     = Raises ZeroDivisionError [0; 6]
  /\ PrimeMultiset.__ge__ 0%nat 1%nat [0; 6] = Returns true [0; 6]
  /\ PrimeMultiset.__gt__ 0%nat 1%nat [0; 6] = Returns true [0; 6]
  /\ PrimeMultiset.__contains__ 0%nat 0 [0; 6]
     = Raises ZeroDivisionError [0; 6].
Proof.
  split; [reflexivity|]. split; [reflexivity|].
  exact (comparisons_divide [0; 6] 0%nat 1%nat 0 6 0 eq_refl eq_refl).
Defined.

Lemma remove_raises_unchanged_witness :
  [6] !! 0%nat = Some 6
  /\ (forall (err : exn) (h' : heap),
        PrimeMultiset.remove 0%nat 0 [6] = Raises err h' ->
        h' = [6] /\ (0 = 0 -> err = ZeroDivisionError)
        /\ (0 <> 0 -> err = KeyError 0 /\ 6 mod 0 <> 0))
  /\ (forall h' : heap,
        PrimeMultiset.remove 0%nat 0 [6] = Returns tt h' ->
        0 <> 0 /\ 6 mod 0 = 0 /\ h' = <[0%nat := 6 / 0]> [6])
  /\ PrimeMultiset.remove 0%nat 0 [6] <> NoSuchObject.
Proof.
  split; [reflexivity|].
  exact (remove_raises_unchanged [6] 0%nat 6 0 eq_refl).
Defined.

Lemma add_remove_round_trip_witness :
  [6] !! 0%nat = Some 6 /\ 3 <> 0
  /\ add_then_remove 0%nat 3 [6] = Returns tt [6]
  /\ (6 mod 3 = 0 -> remove_then_add 0%nat 3 [6] = Returns tt [6]).
Proof.
  assert (He : 3 <> 0) by lia.
  split; [reflexivity|]. split; [exact He|].
  exact (add_remove_round_trip [6] 0%nat 6 3 eq_refl He).
Defined.

Lemma contains_predicts_remove_witness :
  [6] !! 0%nat = Some 6 /\ 4 <> 0
  /\ (PrimeMultiset.__contains__ 0%nat 4 [6] = Returns true [6]
      <-> PrimeMultiset.remove 0%nat 4 [6]
          = Returns tt (<[0%nat := 6 / 4]> [6]))
  /\ (PrimeMultiset.__contains__ 0%nat 4 [6] = Returns false [6]
      <-> PrimeMultiset.remove 0%nat 4 [6] = Raises (KeyError 4) [6]).
Proof.
  assert (He : 4 <> 0) by lia.
  split; [reflexivity|]. split; [exact He|].
  exact (contains_predicts_remove [6] 0%nat 6 4 eq_refl He).
Defined.

(** The empty multiset. *)
Lemma one_is_always_an_element_witness :
  [1] !! 0%nat = Some 1
  /\ PrimeMultiset.__contains__ 0%nat 1 [1] = Returns true [1]
  /\ PrimeMultiset.remove 0%nat 1 [1] = Returns tt [1]
  /\ PrimeMultiset.discard 0%nat 1 [1] = Returns tt [1].
Proof.
  split; [reflexivity|].
  exact (one_is_always_an_element [1] 0%nat 1 eq_refl).
Defined.

Lemma operators_associate_witness :
  positive_at [2; 4; 8] 0%nat 2 /\ positive_at [2; 4; 8] 1%nat 4
  /\ positive_at [2; 4; 8] 2%nat 8
  /\ value_of (nest_left PrimeMultiset.__and__ 0%nat 1%nat 2%nat [2; 4; 8])
     = Some 2
  /\ value_of (nest_right PrimeMultiset.__and__ 0%nat 1%nat 2%nat [2; 4; 8])
     = Some 2
  /\ value_of (nest_left PrimeMultiset.__or__ 0%nat 1%nat 2%nat [2; 4; 8])
     = Some 8
  /\ value_of (nest_right PrimeMultiset.__or__ 0%nat 1%nat 2%nat [2; 4; 8])
     = Some 8
  /\ value_of (nest_left PrimeMultiset.__add__ 0%nat 1%nat 2%nat [2; 4; 8])
     = Some 64
  /\ value_of (nest_right PrimeMultiset.__add__ 0%nat 1%nat 2%nat [2; 4; 8])
     = Some 64.
Proof.
  split; [exact positive_chain_2|]. split; [exact positive_chain_4|].
  split; [exact positive_chain_8|].
  exact (operators_associate [2; 4; 8] 0%nat 1%nat 2%nat 2 4 8
           positive_chain_2 positive_chain_4 positive_chain_8).
Defined.

Lemma operators_on_self_witness :
  positive_at [12] 0%nat 12
  /\ value_of (PrimeMultiset.__and__ 0%nat 0%nat [12]) = Some 12
  /\ value_of (PrimeMultiset.__or__ 0%nat 0%nat [12]) = Some 12
  /\ difference_is_empty 0%nat 0%nat [12] = Returns true [12; 12; 1].
Proof.
  split; [exact positive_alone_12|].
  exact (operators_on_self [12] 0%nat 12 positive_alone_12).
Defined.

Lemma difference_empty_iff_included_witness :
  positive_at [2; 4; 8] 0%nat 2 /\ positive_at [2; 4; 8] 1%nat 4
  /\ result (difference_is_empty 0%nat 1%nat [2; 4; 8]) = Some true
  /\ result (PrimeMultiset.__le__ 0%nat 1%nat [2; 4; 8]) = Some true.
Proof.
  split; [exact positive_chain_2|]. split; [exact positive_chain_4|].
  exact (difference_empty_iff_included [2; 4; 8] 0%nat 1%nat 2 4
           positive_chain_2 positive_chain_4).
Defined.

Lemma inclusion_is_partial_order_witness :
  positive_at [2; 4; 8] 0%nat 2 /\ positive_at [2; 4; 8] 1%nat 4
  /\ positive_at [2; 4; 8] 2%nat 8
  /\ PrimeMultiset.__le__ 0%nat 0%nat [2; 4; 8] = Returns true [2; 4; 8]
  /\ (PrimeMultiset.__le__ 0%nat 1%nat [2; 4; 8] = Returns true [2; 4; 8] ->
      PrimeMultiset.__le__ 1%nat 2%nat [2; 4; 8] = Returns true [2; 4; 8] ->
      PrimeMultiset.__le__ 0%nat 2%nat [2; 4; 8] = Returns true [2; 4; 8])
  /\ (PrimeMultiset.__le__ 0%nat 1%nat [2; 4; 8] = Returns true [2; 4; 8] ->
      PrimeMultiset.__le__ 1%nat 0%nat [2; 4; 8] = Returns true [2; 4; 8] ->
      PrimeMultiset.__eq__ 0%nat 1%nat [2; 4; 8] = Returns true [2; 4; 8])
  /\ PrimeMultiset.__lt__ 0%nat 0%nat [2; 4; 8] = Returns false [2; 4; 8]
  /\ (PrimeMultiset.__lt__ 0%nat 1%nat [2; 4; 8] = Returns true [2; 4; 8] ->
      PrimeMultiset.__lt__ 1%nat 0%nat [2; 4; 8] = Returns false [2; 4; 8]).
Proof.
  split; [exact positive_chain_2|]. split; [exact positive_chain_4|].
  split; [exact positive_chain_8|].
  exact (inclusion_is_partial_order [2; 4; 8] 0%nat 1%nat 2%nat 2 4 8
           positive_chain_2 positive_chain_4 positive_chain_8).
Defined.

Lemma union_difference_decompose_witness :
  positive_at [12; 8] 0%nat 12 /\ positive_at [12; 8] 1%nat 8
  /\ result (union_plus_intersection 0%nat 1%nat [12; 8]) = Some true
  /\ result (difference_plus_intersection 0%nat 1%nat [12; 8]) = Some true.
Proof.
  split; [exact positive_at_12|]. split; [exact positive_at_8|].
  exact (union_difference_decompose [12; 8] 0%nat 1%nat 12 8
           positive_at_12 positive_at_8).
Defined.

Lemma inclusion_by_intersection_or_union_witness :
  positive_at [2; 4; 8] 0%nat 2 /\ positive_at [2; 4; 8] 1%nat 4
  /\ result (PrimeMultiset.__le__ 0%nat 1%nat [2; 4; 8]) = Some true
  /\ result (equals_after PrimeMultiset.__and__ 0%nat 1%nat 0%nat [2; 4; 8])
     = Some true
  /\ result (equals_after PrimeMultiset.__or__ 0%nat 1%nat 1%nat [2; 4; 8])
     = Some true.
Proof.
  split; [exact positive_chain_2|]. split; [exact positive_chain_4|].
  exact (inclusion_by_intersection_or_union [2; 4; 8] 0%nat 1%nat 2 4
           positive_chain_2 positive_chain_4).
Defined.

Lemma empty_multiset_laws_witness :
  [12; 1] !! 0%nat = Some 12 /\ [12; 1] !! 1%nat = Some 1
  /\ value_of (PrimeMultiset.__add__ 0%nat 1%nat [12; 1]) = Some 12
  /\ value_of (PrimeMultiset.__or__ 0%nat 1%nat [12; 1]) = Some 12
  /\ value_of (PrimeMultiset.__sub__ 0%nat 1%nat [12; 1]) = Some 12
  /\ value_of (PrimeMultiset.__and__ 0%nat 1%nat [12; 1]) = Some 1
  /\ PrimeMultiset.__le__ 1%nat 0%nat [12; 1] = Returns true [12; 1].
Proof.
  split; [reflexivity|]. split; [reflexivity|].
  exact (empty_multiset_laws [12; 1] 0%nat 1%nat 12 eq_refl eq_refl).
Defined.

Lemma construction_ignores_order_witness :
  Permutation [2; 3] [3; 2]
  /\ PrimeMultiset.__init__ [2; 3] 5 [] = PrimeMultiset.__init__ [3; 2] 5 [].
Proof.
  assert (Hp : Permutation [2; 3] [3; 2]) by apply perm_swap.
  split; [exact Hp|].
  exact (construction_ignores_order [] [2; 3] [3; 2] 5 Hp).
Defined.

Lemma construction_keeps_invariant_witness :
  heap_ok [6] /\ Forall (fun e => 1 <= e) [2; 3] /\ 1 <= 5
  /\ exists h' : heap,
       PrimeMultiset.__init__ [2; 3] 5 [6] = Returns (length [6]) h'
       /\ heap_ok h'
       /\ exists v : Z, h' !! length [6] = Some v /\ 1 <= v.
Proof.
  assert (Hok : heap_ok [6]) by (repeat constructor; lia).
  assert (Hseq : Forall (fun e => 1 <= e) [2; 3]).
  { repeat constructor; lia. }
  assert (Hi : 1 <= 5) by lia.
  split; [exact Hok|]. split; [exact Hseq|]. split; [exact Hi|].
  exact (construction_keeps_invariant [6] [2; 3] 5 Hok Hseq Hi).
Defined.

Lemma operators_on_multiplicities_witness :
  positive_at [12; 8] 0%nat 12 /\ positive_at [12; 8] 1%nat 8 /\ Z.prime 2
  /\ (exists v : Z,
        value_of (PrimeMultiset.__and__ 0%nat 1%nat [12; 8]) = Some v
        /\ multiplicity 2 v = Nat.min (multiplicity 2 12) (multiplicity 2 8))
  /\ (exists v : Z,
        value_of (PrimeMultiset.__or__ 0%nat 1%nat [12; 8]) = Some v
        /\ multiplicity 2 v = Nat.max (multiplicity 2 12) (multiplicity 2 8))
  /\ (exists v : Z,
        value_of (PrimeMultiset.__add__ 0%nat 1%nat [12; 8]) = Some v
        /\ multiplicity 2 v = (multiplicity 2 12 + multiplicity 2 8)%nat).
Proof.
  split; [exact positive_at_12|]. split; [exact positive_at_8|].
  split; [exact Z.prime_2|].
  exact (operators_on_multiplicities [12; 8] 0%nat 1%nat 12 8 2
           positive_at_12 positive_at_8 Z.prime_2).
Defined.

Lemma add_prime_increments_witness :
  positive_at [12] 0%nat 12 /\ Z.prime 2
  /\ exists v : Z,
       PrimeMultiset.add 0%nat 2 [12] = Returns tt (<[0%nat := v]> [12])
       /\ multiplicity 2 v = S (multiplicity 2 12)
       /\ forall q : Z, Z.prime q -> q <> 2 ->
            multiplicity q v = multiplicity q 12.
Proof.
  split; [exact positive_alone_12|]. split; [exact Z.prime_2|].
  exact (add_prime_increments [12] 0%nat 12 2 positive_alone_12 Z.prime_2).
Defined.

Lemma remove_prime_decrements_witness :
  positive_at [12] 0%nat 12 /\ Z.prime 3 /\ 12 mod 3 = 0
  /\ exists v : Z,
       PrimeMultiset.remove 0%nat 3 [12] = Returns tt (<[0%nat := v]> [12])
       /\ S (multiplicity 3 v) = multiplicity 3 12
       /\ forall q : Z, Z.prime q -> q <> 3 ->
            multiplicity q v = multiplicity q 12.
Proof.
  split; [exact positive_alone_12|]. split; [exact Z.prime_3|].
  split; [reflexivity|].
  exact (remove_prime_decrements [12] 0%nat 12 3
           positive_alone_12 Z.prime_3 eq_refl).
Defined.

Lemma contains_is_positive_multiplicity_witness :
  positive_at [12] 0%nat 12 /\ 2 <= 5
  /\ PrimeMultiset.__contains__ 0%nat 5 [12]
     = Returns (0 <? multiplicity 5 12)%nat [12].
Proof.
  assert (Hp : 2 <= 5) by lia.
  split; [exact positive_alone_12|]. split; [exact Hp|].
  exact (contains_is_positive_multiplicity [12] 0%nat 12 5
           positive_alone_12 Hp).
Defined.

Lemma le_is_multiset_inclusion_witness :
  positive_at [12; 8] 0%nat 12 /\ positive_at [12; 8] 1%nat 8
  /\ (PrimeMultiset.__le__ 0%nat 1%nat [12; 8] = Returns true [12; 8]
      <-> forall p : Z, Z.prime p ->
            (multiplicity p 12 <= multiplicity p 8)%nat).
Proof.
  split; [exact positive_at_12|]. split; [exact positive_at_8|].
  exact (le_is_multiset_inclusion [12; 8] 0%nat 1%nat 12 8
           positive_at_12 positive_at_8).
Defined.

Lemma eq_is_same_multiset_witness :
  positive_at [12; 8] 0%nat 12 /\ positive_at [12; 8] 1%nat 8
  /\ (PrimeMultiset.__eq__ 0%nat 1%nat [12; 8] = Returns true [12; 8]
      <-> forall p : Z, Z.prime p -> multiplicity p 12 = multiplicity p 8).
Proof.
  split; [exact positive_at_12|]. split; [exact positive_at_8|].
  exact (eq_is_same_multiset [12; 8] 0%nat 1%nat 12 8
           positive_at_12 positive_at_8).
Defined.

Lemma construction_counts_occurrences_witness :
  Forall Z.prime [2; 3; 2] /\ Z.prime 2
  /\ exists v : Z,
       PrimeMultiset.__init__ [2; 3; 2] PrimeMultiset.default_initial_value []
       = Returns (length ([] : heap)) ([] ++ [v])
       /\ multiplicity 2 v = count_occ Z.eq_dec [2; 3; 2] 2.
Proof.
  split; [exact primes_2_3_2|]. split; [exact Z.prime_2|].
  exact (construction_counts_occurrences [] [2; 3; 2] 2
           primes_2_3_2 Z.prime_2).
Defined.
